(** * MicrowaveVM: a two-counter Minsky machine and its two-pass loader

    A shallow embedding of [src/main.py].  Python [str] values are
    modelled as [string]; the embedding covers program texts over the
    ASCII range (code points 0..127), where the Python string methods
    used by the loader ([splitlines], [split], [strip], [upper],
    [replace], [endswith], [int]) are given below by their behaviour on
    such texts.  Python [int] is [Z].  The dictionaries [registers] and
    [labels] are finite maps keyed by strings.  An exception leaves the
    mutations made before it in place, so every operation returns the
    machine it left behind next to its outcome.

    [int] and [str] follow CPython 3.6 and later (underscores between
    digits are accepted); the cap that CPython 3.11 puts on the number
    of digits converted (4300 by default) is left out. *)

From Stdlib Require Import ZArith List String Ascii Bool Lia DecimalString.
From stdpp Require Import base option gmap strings list.

Open Scope string_scope.
Open Scope Z_scope.

(** ** Python string primitives *)

Module PyStr.

(** [str.isspace] on one ASCII character: TAB, LF, VT, FF, CR, the four
    separators FS, GS, RS, US, and the space. *)
Definition is_space (c : ascii) : bool :=
  let n := nat_of_ascii c in
  ((9 <=? n)%nat && (n <=? 13)%nat) || ((28 <=? n)%nat && (n <=? 31)%nat)
  || (n =? 32)%nat.

(** The line boundaries of [str.splitlines] in the ASCII range:
    LF, VT, FF, CR, FS, GS, RS. *)
Definition is_linebreak (c : ascii) : bool :=
  let n := nat_of_ascii c in
  ((10 <=? n)%nat && (n <=? 13)%nat) || ((28 <=? n)%nat && (n <=? 30)%nat).

Definition is_empty (s : string) : bool :=
  match s with EmptyString => true | String _ _ => false end.

Definition cons_first (c : ascii) (ls : list string) : list string :=
  match ls with
  | [] => [String c EmptyString]
  | l :: rest => String c l :: rest
  end.

(** [s.splitlines()]: CR LF counts as one boundary and a final boundary
    opens no further line. *)
Fixpoint splitlines (s : string) : list string :=
  match s with
  | EmptyString => []
  | String c s' =>
      if is_linebreak c then
        EmptyString ::
          match s' with
          | String c' s'' =>
              if Ascii.eqb c "013" && Ascii.eqb c' "010"
              then splitlines s'' else splitlines s'
          | EmptyString => []
          end
      else cons_first c (splitlines s')
  end.

(** [s.split(sep, 1)[0]]: the text before the first [sep], the whole
    text when there is none. *)
Fixpoint before (sep : ascii) (s : string) : string :=
  match s with
  | EmptyString => EmptyString
  | String c s' => if Ascii.eqb c sep then EmptyString else String c (before sep s')
  end.

Fixpoint lstrip (s : string) : string :=
  match s with
  | EmptyString => EmptyString
  | String c s' => if is_space c then lstrip s' else s
  end.

Fixpoint rstrip (s : string) : string :=
  match s with
  | EmptyString => EmptyString
  | String c s' =>
      let r := rstrip s' in
      if is_space c && is_empty r then EmptyString else String c r
  end.

(** [s.strip()] *)
Definition strip (s : string) : string := rstrip (lstrip s).

(** [s.endswith(c)] for a one-character suffix. *)
Fixpoint endswith (c : ascii) (s : string) : bool :=
  match s with
  | EmptyString => false
  | String x EmptyString => Ascii.eqb x c
  | String _ s' => endswith c s'
  end.

(** [s[:-1]] *)
Fixpoint drop_last (s : string) : string :=
  match s with
  | EmptyString => EmptyString
  | String _ EmptyString => EmptyString
  | String x s' => String x (drop_last s')
  end.

(** [s.replace(a, b)] for one-character [a] and [b]. *)
Fixpoint replace (a b : ascii) (s : string) : string :=
  match s with
  | EmptyString => EmptyString
  | String c s' => String (if Ascii.eqb c a then b else c) (replace a b s')
  end.

(** [s.split()]: the maximal runs of non-whitespace characters. *)
Fixpoint split (s : string) : list string :=
  match s with
  | EmptyString => []
  | String c s' =>
      if is_space c then split s'
      else match s' with
           | EmptyString => [String c EmptyString]
           | String c' _ =>
               if is_space c' then String c EmptyString :: split s'
               else cons_first c (split s')
           end
  end.

Definition upper_char (c : ascii) : ascii :=
  let n := nat_of_ascii c in
  if (97 <=? n)%nat && (n <=? 122)%nat then ascii_of_nat (n - 32) else c.

(** [s.upper()] *)
Fixpoint upper (s : string) : string :=
  match s with
  | EmptyString => EmptyString
  | String c s' => String (upper_char c) (upper s')
  end.

Definition digit_val (c : ascii) : option Z :=
  let n := nat_of_ascii c in
  if (48 <=? n)%nat && (n <=? 57)%nat then Some (Z.of_nat (n - 48)) else None.

(** The digit part of an [int] literal: decimal digits, with single
    underscores allowed between digits only.  [prev] tells whether the
    character just read was a digit. *)
Fixpoint digits (acc : Z) (prev : bool) (s : string) : option Z :=
  match s with
  | EmptyString => if prev then Some acc else None
  | String c s' =>
      match digit_val c with
      | Some d => digits (10 * acc + d) true s'
      | None =>
          if Ascii.eqb c "_" && prev then digits acc false s' else None
      end
  end.

(** [int(s)] in base 10: surrounding whitespace is ignored, then an
    optional sign and the digit part.  [None] stands for the
    [ValueError] Python raises. *)
Definition int (s : string) : option Z :=
  match strip s with
  | String "-" ds => Z.opp <$> digits 0 false ds
  | String "+" ds => digits 0 false ds
  | ds => digits 0 false ds
  end.

(** [str(n)] for an [int], as [print] and f-strings render it. *)
Definition str (n : Z) : string :=
  DecimalString.NilZero.string_of_int (Z.to_int n).

End PyStr.

(** ** The machine *)

Record Instr := mkInstr {
  op : string;
  args : list string   (* tokens as strings *)
}.

Record MicrowaveVM := mkVM {
  registers : gmap string Z;
  program : list Instr;
  labels : gmap string Z;
  pc : Z;
  halted : bool;
  steps : Z
}.

(** [MicrowaveVM()] *)
Definition init : MicrowaveVM :=
  {| registers := <["POWER" := 0]> (<["TIME" := 0]> ∅);
     program := []; labels := ∅; pc := 0; halted := false; steps := 0 |}.

Definition set_registers (r : gmap string Z) (vm : MicrowaveVM) : MicrowaveVM :=
  {| registers := r; program := program vm; labels := labels vm;
     pc := pc vm; halted := halted vm; steps := steps vm |}.
Definition set_program (p : list Instr) (vm : MicrowaveVM) : MicrowaveVM :=
  {| registers := registers vm; program := p; labels := labels vm;
     pc := pc vm; halted := halted vm; steps := steps vm |}.
Definition set_labels (l : gmap string Z) (vm : MicrowaveVM) : MicrowaveVM :=
  {| registers := registers vm; program := program vm; labels := l;
     pc := pc vm; halted := halted vm; steps := steps vm |}.
Definition set_pc (n : Z) (vm : MicrowaveVM) : MicrowaveVM :=
  {| registers := registers vm; program := program vm; labels := labels vm;
     pc := n; halted := halted vm; steps := steps vm |}.
Definition set_halted (b : bool) (vm : MicrowaveVM) : MicrowaveVM :=
  {| registers := registers vm; program := program vm; labels := labels vm;
     pc := pc vm; halted := b; steps := steps vm |}.
Definition set_steps (n : Z) (vm : MicrowaveVM) : MicrowaveVM :=
  {| registers := registers vm; program := program vm; labels := labels vm;
     pc := pc vm; halted := halted vm; steps := n |}.

(** ** Exceptions, output and the monad of methods

    Every error the source raises itself is a [ValueError] or a
    [RuntimeError] told apart by its message.  [InvalidLiteral s] is
    the [ValueError] of [int(s)], [IndexError] the one of an index out
    of range. *)
Inductive exn :=
| ValueError (msg : string)
| InvalidLiteral (s : string)
| IndexError
| RuntimeError (msg : string).

Inductive res (A : Type) :=
| Ret (a : A)
| Raise (e : exn).
Arguments Ret {A} a.
Arguments Raise {A} e.

(** A method takes the machine and gives its result or exception, the
    machine as it left it, and the lines it printed. *)
Definition M (A : Type) : Type := MicrowaveVM -> res A * MicrowaveVM * list string.

Definition ret {A} (a : A) : M A := fun vm => (Ret a, vm, []).
Definition raise {A} (e : exn) : M A := fun vm => (Raise e, vm, []).
Definition bind {A B} (m : M A) (k : A -> M B) : M B :=
  fun vm =>
    match m vm with
    | (Ret a, vm', out) =>
        match k a vm' with (r, vm'', out') => (r, vm'', (out ++ out')%list) end
    | (Raise e, vm', out) => (Raise e, vm', out)
    end.
Definition get : M MicrowaveVM := fun vm => (Ret vm, vm, []).
Definition modify (f : MicrowaveVM -> MicrowaveVM) : M unit := fun vm => (Ret tt, f vm, []).
Definition print (line : string) : M unit := fun vm => (Ret tt, vm, [line]).

Declare Scope vm_scope.
Delimit Scope vm_scope with vm.
Notation "'do' x <- m ; k" := (bind m (fun x => k))
  (at level 10, x name, m at level 100, k at level 200) : vm_scope.
Notation "m ;;; k" := (bind m (fun _ => k))
  (at level 100, k at level 200, right associativity) : vm_scope.
Open Scope vm_scope.

(** [xs[i]] for a non-negative index. *)
Definition index {A} (xs : list A) (i : nat) : M A :=
  match xs !! i with
  | Some x => ret x
  | None => raise IndexError
  end.

(** [int(s)] *)
Definition to_int (s : string) : M Z :=
  match PyStr.int s with
  | Some v => ret v
  | None => raise (InvalidLiteral s)
  end.

(** ** Execution *)

Definition regname (s : string) : string := PyStr.upper s.

(** [self.registers.get(r, 0)] *)
Definition reg_get (vm : MicrowaveVM) (r : string) : Z := default 0 (registers vm !! r).

Definition in_bounds (vm : MicrowaveVM) : bool :=
  (0 <=? pc vm) && (pc vm <? Z.of_nat (length (program vm))).

(** [self.pc = self.labels[target]] behind the membership test. *)
Definition jump (target : string) : M unit :=
  do vm <- get;
  match labels vm !! target with
  | None => raise (ValueError ("Unknown label: " ++ target))
  | Some i => modify (set_pc i)
  end.

Definition advance : M unit := modify (fun vm => set_pc (pc vm + 1) vm).

Definition exec (instr : Instr) : M unit :=
  if String.eqb (op instr) "SET" then
    do a0 <- index (args instr) 0;
    do a1 <- index (args instr) 1;
    do v <- to_int a1;
    modify (fun vm => set_registers (<[regname a0 := v]> (registers vm)) vm);;;
    advance
  else if String.eqb (op instr) "INC" then
    do a0 <- index (args instr) 0;
    modify (fun vm =>
      set_registers (<[regname a0 := reg_get vm (regname a0) + 1]> (registers vm)) vm);;;
    advance
  else if String.eqb (op instr) "DECJZ" then
    do a0 <- index (args instr) 0;
    do target <- index (args instr) 1;
    do vm <- get;
    if reg_get vm (regname a0) =? 0 then jump target
    else
      modify (fun vm =>
        set_registers (<[regname a0 := reg_get vm (regname a0) - 1]> (registers vm)) vm);;;
      advance
  else if String.eqb (op instr) "GOTO" then
    do target <- index (args instr) 0;
    jump target
  else if String.eqb (op instr) "PRINT" then
    do vm <- get;
    print ("TIME: " ++ PyStr.str (reg_get vm "TIME"));;;
    advance
  else if String.eqb (op instr) "HALT" then
    print "BEEEEEEP!";;;
    modify (set_halted true)
  else ret tt.

Definition step : M unit :=
  do vm <- get;
  if halted vm then ret tt
  else if negb (in_bounds vm) then
    (* Implicit halt if PC falls off program *)
    modify (set_halted true)
  else
    do instr <- index (program vm) (Z.to_nat (pc vm));
    modify (fun vm => set_steps (steps vm + 1) vm);;;
    exec instr.

Definition step_limit : exn := RuntimeError "Step limit reached (possible infinite loop).".

Definition over_budget (max_steps : option Z) (vm : MicrowaveVM) : bool :=
  match max_steps with
  | Some b => b <=? steps vm
  | None => false
  end.

(** [run]: the [while] loop unrolled at most [fuel] times; [None] when
    the loop is still going after [fuel] iterations. *)
Fixpoint run (fuel : nat) (max_steps : option Z) (vm : MicrowaveVM)
  : option (res unit * MicrowaveVM * list string) :=
  if halted vm then Some (Ret tt, vm, [])
  else if over_budget max_steps vm then Some (Raise step_limit, vm, [])
  else
    match fuel with
    | O => None
    | S fuel' =>
        match step vm with
        | (Ret _, vm', out) =>
            match run fuel' max_steps vm' with
            | Some (r, vm'', out') => Some (r, vm'', (out ++ out')%list)
            | None => None
            end
        | (Raise e, vm', out) => Some (Raise e, vm', out)
        end
    end.

(** [state] *)
Definition state (vm : MicrowaveVM) : gmap string Z := registers vm.

Definition reset_registers (TIME POWER : Z) : M unit :=
  modify (fun vm => set_registers (<["TIME" := TIME]> (registers vm)) vm);;;
  modify (fun vm => set_registers (<["POWER" := POWER]> (registers vm)) vm);;;
  modify (set_pc 0);;;
  modify (set_halted false);;;
  modify (set_steps 0).

(** ** Assembler / Loader *)

(** [raw.split(';', 1)[0].split('#', 1)[0].strip()] *)
Definition normalize (raw : string) : string :=
  PyStr.strip (PyStr.before "#" (PyStr.before ";" raw)).

Definition is_register (a : string) : bool :=
  String.eqb (PyStr.upper a) "TIME" || String.eqb (PyStr.upper a) "POWER".

(** First pass: collect labels.  [idx] is the running instruction
    index. *)
Fixpoint first_pass (lines : list string) (idx : Z) : M unit :=
  match lines with
  | [] => ret tt
  | raw :: rest =>
      let line := normalize raw in
      if PyStr.is_empty line then first_pass rest idx
      else if PyStr.endswith ":" line then
        let label := PyStr.strip (PyStr.drop_last line) in
        if PyStr.is_empty label then raise (ValueError "Empty label definition.")
        else
          do vm <- get;
          if decide (is_Some (labels vm !! label))
          then raise (ValueError ("Duplicate label: " ++ label))
          else
            modify (fun vm => set_labels (<[label := idx]> (labels vm)) vm);;;
            first_pass rest idx
      else first_pass rest (idx + 1)
  end.

(** The validation of one instruction line of the second pass: the
    instruction it appends, or the exception it raises. *)
Definition parse (line : string) : res Instr :=
  match PyStr.split (PyStr.replace "," " " line) with
  | [] => Raise IndexError
  | t :: targs =>
      let op := PyStr.upper t in
      let ok := Ret (mkInstr op targs) in
      if String.eqb op "SET" then
        match targs with
        | [a0; a1] =>
            if negb (is_register a0)
            then Raise (ValueError ("Unknown register in SET: " ++ a0))
            else match PyStr.int a1 with
                 | Some _ => ok
                 | None => Raise (ValueError ("SET value must be integer: " ++ a1))
                 end
        | _ => Raise (ValueError ("SET expects 2 args: " ++ line))
        end
      else if String.eqb op "INC" then
        match targs with
        | [a0] =>
            if is_register a0 then ok
            else Raise (ValueError ("INC expects register (TIME/POWER): " ++ line))
        | _ => Raise (ValueError ("INC expects register (TIME/POWER): " ++ line))
        end
      else if String.eqb op "DECJZ" then
        match targs with
        | [a0; _] =>
            if is_register a0 then ok
            else Raise (ValueError ("DECJZ expects register and label: " ++ line))
        | _ => Raise (ValueError ("DECJZ expects register and label: " ++ line))
        end
      else if String.eqb op "GOTO" then
        match targs with
        | [_] => ok
        | _ => Raise (ValueError ("GOTO expects 1 label: " ++ line))
        end
      else if String.eqb op "PRINT" then
        match targs with
        | [] => ok
        | _ => Raise (ValueError ("PRINT takes no args: " ++ line))
        end
      else if String.eqb op "HALT" then
        match targs with
        | [] => ok
        | _ => Raise (ValueError ("HALT takes no args: " ++ line))
        end
      else Raise (ValueError ("Unknown opcode: " ++ op))
  end.

(** Second pass: parse instructions. *)
Fixpoint second_pass (lines : list string) : M unit :=
  match lines with
  | [] => ret tt
  | raw :: rest =>
      let line := normalize raw in
      if PyStr.is_empty line || PyStr.endswith ":" line then second_pass rest
      else
        match parse line with
        | Raise e => raise e
        | Ret instr =>
            modify (fun vm => set_program (program vm ++ [instr])%list vm);;;
            second_pass rest
        end
  end.

Definition load_program (source : string) : M unit :=
  modify (set_program []);;;
  modify (set_labels ∅);;;
  modify (set_pc 0);;;
  modify (set_halted false);;;
  modify (set_steps 0);;;
  let lines := PyStr.splitlines source in
  first_pass lines 0;;;
  second_pass lines.

Definition LF : string := String "010" EmptyString.

Definition ADD_PROGRAM : string :=
  LF ++
  "    ; Precondition: TIME = a, POWER = b" ++ LF ++
  "    ; Post:        TIME = a+b, POWER = 0" ++ LF ++
  "loop:" ++ LF ++
  "    DECJZ POWER end" ++ LF ++
  "    INC TIME" ++ LF ++
  "    GOTO loop" ++ LF ++
  "end:" ++ LF ++
  "    HALT" ++ LF.

(** A fresh machine holding the program [p]. *)
Definition vm_of (p : list Instr) : MicrowaveVM := set_program p init.


(** [survives n vm]: the machine is running, and each of its next [n]
    steps returns normally and leaves it running. *)
Fixpoint survives (n : nat) (vm : MicrowaveVM) : bool :=
  negb (halted vm) &&
  match n with
  | O => true
  | S n' =>
      match step vm with
      | (Ret _, vm', _) => survives n' vm'
      | (Raise _, _, _) => false
      end
  end.

(** A program that never halts. *)
Definition spin : string := "loop:" ++ LF ++ "  INC TIME" ++ LF ++ "  GOTO loop" ++ LF.

(** ** Vocabulary for the statements about the loader *)

Definition is_delim (c : ascii) : bool := Ascii.eqb c ";" || Ascii.eqb c "#".

(** The text before the first comment character, whichever of [;] and
    [#] it is: the comment rule in the specification's words. *)
Fixpoint before_comment (s : string) : string :=
  match s with
  | EmptyString => EmptyString
  | String c s' => if is_delim c then EmptyString else String c (before_comment s')
  end.

Fixpoint has_delim (s : string) : bool :=
  match s with
  | EmptyString => false
  | String c s' => is_delim c || has_delim s'
  end.

(** The three kinds of normalized line the two passes tell apart. *)
Definition is_label_line (line : string) : bool :=
  negb (PyStr.is_empty line) && PyStr.endswith ":" line.

Definition is_code_line (line : string) : bool :=
  negb (PyStr.is_empty line || PyStr.endswith ":" line).

(** [line[:-1].strip()] *)
Definition label_of (line : string) : string := PyStr.strip (PyStr.drop_last line).

(** The number of instruction lines among raw lines. *)
Fixpoint count_code (lines : list string) : Z :=
  match lines with
  | [] => 0
  | raw :: rest => (if is_code_line (normalize raw) then 1 else 0) + count_code rest
  end.

(** The label names raw lines define, in order. *)
Fixpoint label_names (lines : list string) : list string :=
  match lines with
  | [] => []
  | raw :: rest =>
      if is_label_line (normalize raw)
      then label_of (normalize raw) :: label_names rest
      else label_names rest
  end.

Definition is_Ret {A} (r : res A) : bool :=
  match r with Ret _ => true | Raise _ => false end.

(** A well-formed program text: every label definition names a
    non-empty label, no label is defined twice, and every instruction
    line passes the validation of the second pass.  Nothing is asked of
    the labels that instructions refer to. *)
Definition well_formed (lines : list string) : bool :=
  forallb (fun l => negb (PyStr.is_empty l)) (label_names lines)
  && bool_decide (NoDup (label_names lines))
  && forallb (fun raw => negb (is_code_line (normalize raw))
                         || is_Ret (parse (normalize raw))) lines.

(** The machine as [load_program] leaves it before reading the text. *)
Definition cleared (vm : MicrowaveVM) : MicrowaveVM :=
  set_steps 0 (set_halted false (set_pc 0 (set_labels ∅ (set_program [] vm)))).

(** The two passes over lines already split. *)
Definition load_lines (lines : list string) : M unit :=
  first_pass lines 0;;; second_pass lines.

(** A text whose third line has an unknown opcode. *)
Definition partial_source : string :=
  "start:" ++ LF ++ "INC TIME" ++ LF ++ "FOO TIME" ++ LF.

(** A text that jumps forward over one instruction. *)
Definition forward_source : string :=
  "  GOTO end" ++ LF ++ "  INC TIME" ++ LF ++ "end:" ++ LF ++ "  HALT" ++ LF.

(** A text whose first line ends in a colon but looks like a jump. *)
Definition colon_source : string := "GOTO x:" ++ LF ++ "HALT" ++ LF.

(** ** Vocabulary for the statements about loaded programs *)

(** What the validation of the second pass leaves in an instruction:
    one of the six opcodes in upper case, its number of arguments, a
    register where one is asked for, and for SET a literal that [int]
    accepts. *)
Definition valid_instr (i : Instr) : bool :=
  match args i with
  | [] => String.eqb (op i) "PRINT" || String.eqb (op i) "HALT"
  | [a0] => (String.eqb (op i) "INC" && is_register a0) || String.eqb (op i) "GOTO"
  | [a0; a1] =>
      (String.eqb (op i) "SET" && is_register a0 && bool_decide (is_Some (PyStr.int a1)))
      || (String.eqb (op i) "DECJZ" && is_register a0)
  | _ => false
  end.

(** The instructions of the demo [ADD_PROGRAM] and its label table. *)
Definition add_instrs : list Instr :=
  [mkInstr "DECJZ" ["POWER"; "end"]; mkInstr "INC" ["TIME"];
   mkInstr "GOTO" ["loop"]; mkInstr "HALT" []].

Definition add_labels : gmap string Z := <["end" := 3]> (<["loop" := 0]> ∅).

(** A line printed by PRINT. *)
Definition is_time_line (s : string) : Prop := exists n, s = "TIME: " ++ PyStr.str n.

(** Characters that the tokenizer drops: commas and whitespace. *)
Definition is_comma_or_space (c : ascii) : bool := Ascii.eqb c "," || PyStr.is_space c.

Fixpoint only_separators (s : string) : bool :=
  match s with
  | EmptyString => true
  | String c s' => is_comma_or_space c && only_separators s'
  end.

(** The non-blank normalized lines of a text. *)
Fixpoint significant (lines : list string) : list string :=
  match lines with
  | [] => []
  | raw :: rest =>
      if PyStr.is_empty (normalize raw) then significant rest
      else normalize raw :: significant rest
  end.

(** What one step prints when it is a PRINT. *)
Definition is_time_line_list (out : list string) : Prop :=
  exists n, out = ["TIME: " ++ PyStr.str n].

(** ** Sanity checks of the embedding on concrete inputs *)

Example splitlines_ex :
  PyStr.splitlines ("a" ++ LF ++ LF ++ "b" ++ String "013" LF ++ "c" ++ LF)
  = ["a"; ""; "b"; "c"].
Proof. reflexivity. Qed.

Example split_ex : PyStr.split "  DECJZ  POWER end " = ["DECJZ"; "POWER"; "end"].
Proof. reflexivity. Qed.

Example int_ex :
  (PyStr.int "-12", PyStr.int "+1_000", PyStr.int "1__0", PyStr.int "-", PyStr.int "007",
   PyStr.int "_1", PyStr.int "1_", PyStr.int "12a")
  = (Some (-12), Some 1000, None, None, Some 7, None, None, None).
Proof. reflexivity. Qed.

Example str_ex : (PyStr.str 0, PyStr.str (-5), PyStr.str 120) = ("0", "-5", "120").
Proof. reflexivity. Qed.

Example strip_ex : PyStr.strip "  a b  " = "a b".
Proof. reflexivity. Qed.

Example load_add :
  let '(r, vm, _) := load_program ADD_PROGRAM init in
  r = Ret tt /\
  program vm = [mkInstr "DECJZ" ["POWER"; "end"]; mkInstr "INC" ["TIME"];
                mkInstr "GOTO" ["loop"]; mkInstr "HALT" []] /\
  labels vm !! "loop" = Some 0 /\ labels vm !! "end" = Some 3.
Proof. vm_compute. auto. Qed.

Example run_add :
  let '(_, vm, _) := load_program ADD_PROGRAM init in
  let '(_, vm, _) := reset_registers 3 2 vm in
  match run 100 None vm with
  | Some (r, vm', out) =>
      r = Ret tt /\ registers vm' !! "TIME" = Some 5 /\ registers vm' !! "POWER" = Some 0
      /\ out = ["BEEEEEEP!"] /\ steps vm' = 8
  | None => False
  end.
Proof. vm_compute. auto. Qed.

(** ** The single step *)

Section Step.

Implicit Types (vm : MicrowaveVM) (instr : Instr).

Lemma in_bounds_true vm :
  in_bounds vm = true <-> 0 <= pc vm < Z.of_nat (length (program vm)).
Proof. unfold in_bounds. rewrite andb_true_iff, Z.leb_le, Z.ltb_lt. tauto. Qed.

Lemma in_bounds_false vm :
  in_bounds vm = false <-> ~ (0 <= pc vm < Z.of_nat (length (program vm))).
Proof. rewrite <- in_bounds_true. destruct (in_bounds vm); split; congruence. Qed.

Lemma fetch_in_bounds vm instr :
  0 <= pc vm -> program vm !! Z.to_nat (pc vm) = Some instr -> in_bounds vm = true.
Proof.
  intros Hpc Hi. apply in_bounds_true. split; [done|].
  apply lookup_lt_Some in Hi. lia.
Qed.

(** A running machine whose program counter is in range executes the
    instruction it points at, after counting the step. *)
Lemma step_fetch vm instr :
  halted vm = false -> 0 <= pc vm ->
  program vm !! Z.to_nat (pc vm) = Some instr ->
  step vm = exec instr (set_steps (steps vm + 1) vm).
Proof.
  intros Hh Hpc Hi. unfold step, bind, get. simpl. rewrite Hh.
  rewrite (fetch_in_bounds _ _ Hpc Hi). simpl.
  unfold index. rewrite Hi. unfold ret, modify. simpl.
  by destruct (exec instr _) as [[r vm'] out].
Qed.

Lemma step_off_the_end vm :
  halted vm = false -> in_bounds vm = false ->
  step vm = (Ret tt, set_halted true vm, []).
Proof. intros Hh Hb. unfold step, bind, get. simpl. by rewrite Hh, Hb. Qed.

End Step.

(** C6.  Halted is absorbing: a step of a halted machine returns
    normally, prints nothing and leaves every field of the machine
    (registers, program, label table, program counter, halted flag,
    step counter) as it was. *)
Theorem step_halted_noop (vm : MicrowaveVM) :
  halted vm = true -> step vm = (Ret tt, vm, []).
Proof. intros Hh. unfold step, bind, get. simpl. by rewrite Hh. Qed.

Lemma step_halted_noop_witness :
  step (set_halted true init) = (Ret tt, set_halted true init, []).
Proof. apply (step_halted_noop (set_halted true init)). reflexivity. Defined.

(** C8.  [reset_registers] returns normally, stores the two seeds in
    TIME and POWER, rewinds the program counter, the halted flag and
    the step counter, and keeps the loaded program, the label table and
    any other register entry. *)
Theorem reset_registers_spec (TIME POWER : Z) (vm : MicrowaveVM) :
  exists vm',
    reset_registers TIME POWER vm = (Ret tt, vm', []) /\
    registers vm' !! "TIME" = Some TIME /\
    registers vm' !! "POWER" = Some POWER /\
    (forall r, r <> "TIME" -> r <> "POWER" -> registers vm' !! r = registers vm !! r) /\
    pc vm' = 0 /\ halted vm' = false /\ steps vm' = 0 /\
    program vm' = program vm /\ labels vm' = labels vm.
Proof.
  eexists. split; [reflexivity|]. simpl.
  repeat split.
  - rewrite lookup_insert_ne by done. apply lookup_insert_eq.
  - apply lookup_insert_eq.
  - intros r Ht Hp. by rewrite !lookup_insert_ne.
Qed.

(** C4.  A running machine whose program counter is outside
    [0, len(program)) halts on the next step silently: nothing is
    printed and the step counter stays.  A running machine at a HALT
    instruction halts too, but counts the step and prints the beep; so
    the outputs of the two steps differ. *)
Theorem implicit_vs_explicit_halt (vm vm_h : MicrowaveVM) (args_h : list string) :
  halted vm = false ->
  ~ (0 <= pc vm < Z.of_nat (length (program vm))) ->
  halted vm_h = false ->
  0 <= pc vm_h ->
  program vm_h !! Z.to_nat (pc vm_h) = Some (mkInstr "HALT" args_h) ->
  step vm = (Ret tt, set_halted true vm, []) /\
  step vm_h = (Ret tt, set_halted true (set_steps (steps vm_h + 1) vm_h), ["BEEEEEEP!"]) /\
  snd (step vm) <> snd (step vm_h).
Proof.
  intros Hh Hb Hh' Hpc Hi.
  assert (H1 : step vm = (Ret tt, set_halted true vm, []))
    by (apply step_off_the_end; [done | by apply in_bounds_false]).
  assert (H2 : step vm_h
               = (Ret tt, set_halted true (set_steps (steps vm_h + 1) vm_h), ["BEEEEEEP!"]))
    by (rewrite (step_fetch _ _ Hh' Hpc Hi); reflexivity).
  repeat split; [done | done |]. rewrite H1, H2. simpl. discriminate.
Qed.

Lemma implicit_vs_explicit_halt_witness :
  step (vm_of []) = (Ret tt, set_halted true (vm_of []), []) /\
  step (vm_of [mkInstr "HALT" []])
  = (Ret tt, set_halted true (set_steps (0 + 1) (vm_of [mkInstr "HALT" []])), ["BEEEEEEP!"]) /\
  snd (step (vm_of [])) <> snd (step (vm_of [mkInstr "HALT" []])).
Proof.
  apply (implicit_vs_explicit_halt (vm_of []) (vm_of [mkInstr "HALT" []]) []).
  - reflexivity.
  - simpl. lia.
  - reflexivity.
  - simpl. lia.
  - reflexivity.
Defined.

(** The step at a DECJZ, for any content of the register. *)
Lemma decjz_like (vm : MicrowaveVM) (a0 target : string) (rest : list string) :
  halted vm = false ->
  0 <= pc vm ->
  program vm !! Z.to_nat (pc vm) = Some (mkInstr "DECJZ" (a0 :: target :: rest)) ->
  let vm1 := set_steps (steps vm + 1) vm in
  step vm =
    if reg_get vm (regname a0) =? 0 then
      match labels vm !! target with
      | Some i => (Ret tt, set_pc i vm1, [])
      | None => (Raise (ValueError ("Unknown label: " ++ target)), vm1, [])
      end
    else
      (Ret tt,
       set_pc (pc vm + 1)
         (set_registers (<[regname a0 := reg_get vm (regname a0) - 1]> (registers vm)) vm1),
       []).
Proof.
  intros Hh Hpc Hi vm1. rewrite (step_fetch _ _ Hh Hpc Hi). fold vm1.
  unfold exec. simpl. unfold bind, index, get, ret. simpl.
  change (reg_get vm1 (regname a0)) with (reg_get vm (regname a0)).
  destruct (reg_get vm (regname a0) =? 0).
  - unfold jump, bind, get. simpl. by destruct (labels vm !! target).
  - reflexivity.
Qed.

(** C2.  One step at [DECJZ r L] of a running machine whose register r
    holds [n >= 0] (no entry reads as 0).  When [n] is 0 the registers
    are left as they are, so r stays 0, and the program counter becomes
    the index the label table gives for L; when L is not in the table
    the step raises the unknown-label [ValueError] instead.  When
    [n > 0] the register becomes [n - 1] and the program counter
    advances by exactly one.  The step is counted in every case and
    nothing is printed. *)
Theorem decjz_step (vm : MicrowaveVM) (a0 target : string) (rest : list string) (n : Z) :
  halted vm = false ->
  0 <= pc vm ->
  program vm !! Z.to_nat (pc vm) = Some (mkInstr "DECJZ" (a0 :: target :: rest)) ->
  reg_get vm (regname a0) = n ->
  0 <= n ->
  let vm1 := set_steps (steps vm + 1) vm in
  step vm =
    if n =? 0 then
      match labels vm !! target with
      | Some i => (Ret tt, set_pc i vm1, [])
      | None => (Raise (ValueError ("Unknown label: " ++ target)), vm1, [])
      end
    else
      (Ret tt,
       set_pc (pc vm + 1) (set_registers (<[regname a0 := n - 1]> (registers vm)) vm1),
       []).
Proof.
  intros Hh Hpc Hi Hn _ vm1. rewrite (decjz_like vm a0 target rest Hh Hpc Hi).
  by rewrite Hn.
Qed.

Lemma decjz_step_witness :
  let vm := set_registers (<["TIME" := 3]> (registers init))
              (vm_of [mkInstr "DECJZ" ["time"; "end"]]) in
  let vm1 := set_steps (steps vm + 1) vm in
  step vm =
    if 3 =? 0 then
      match labels vm !! "end" with
      | Some i => (Ret tt, set_pc i vm1, [])
      | None => (Raise (ValueError ("Unknown label: " ++ "end")), vm1, [])
      end
    else
      (Ret tt,
       set_pc (pc vm + 1) (set_registers (<[regname "time" := 3 - 1]> (registers vm)) vm1),
       []).
Proof.
  apply (decjz_step
           (set_registers (<["TIME" := 3]> (registers init))
              (vm_of [mkInstr "DECJZ" ["time"; "end"]]))
           "time" "end" [] 3).
  - reflexivity.
  - simpl. lia.
  - reflexivity.
  - reflexivity.
  - lia.
Defined.

Example decjz_zero_jumps :
  let vm := set_labels (<["end" := 7]> ∅) (vm_of [mkInstr "DECJZ" ["time"; "end"]]) in
  let '(r, vm', out) := step vm in
  r = Ret tt /\ pc vm' = 7 /\ registers vm' = registers vm /\ steps vm' = 1 /\ out = [].
Proof. vm_compute. auto. Qed.

Example decjz_positive_decrements :
  let vm := set_registers (<["TIME" := 3]> (registers init))
              (vm_of [mkInstr "DECJZ" ["time"; "nowhere"]]) in
  let '(r, vm', out) := step vm in
  r = Ret tt /\ pc vm' = 1 /\ registers vm' !! "TIME" = Some 2 /\ out = [].
Proof. vm_compute. auto. Qed.

Example decjz_zero_unknown_label :
  let vm := vm_of [mkInstr "DECJZ" ["POWER"; "nowhere"]] in
  let '(r, vm', out) := step vm in
  r = Raise (ValueError "Unknown label: nowhere") /\ pc vm' = 0 /\
  registers vm' = registers vm /\ steps vm' = 1 /\ out = [].
Proof. vm_compute. auto. Qed.

(** ** The run loop *)

Section Run.

Implicit Types (vm : MicrowaveVM) (instr : Instr).

Ltac exec_cases :=
  repeat match goal with
         | |- context [String.eqb ?a ?b] => destruct (String.eqb a b)
         | |- context [?l !! ?i] =>
             match type of l with list string => destruct (l !! i) end
         | |- context [PyStr.int ?s] => destruct (PyStr.int s)
         | |- context [Z.eqb ?a ?b] => destruct (Z.eqb a b)
         | |- context [labels ?v !! ?t] => destruct (labels v !! t)
         end.

(** No instruction touches the step counter. *)
Lemma exec_steps instr vm r vm' out :
  exec instr vm = (r, vm', out) -> steps vm' = steps vm.
Proof.
  unfold exec, jump, advance.
  unfold bind, index, to_int, get, ret, raise, modify, print.
  exec_cases; simpl; exec_cases; simpl; intros H; inversion H; reflexivity.
Qed.

Lemma step_counts vm vm' out :
  halted vm = false -> step vm = (Ret tt, vm', out) -> halted vm' = false ->
  steps vm' = steps vm + 1.
Proof.
  intros Hh Hs Hh'. destruct (in_bounds vm) eqn:Hb.
  - apply in_bounds_true in Hb. destruct Hb as [Hpc Hlen].
    destruct (program vm !! Z.to_nat (pc vm)) as [instr|] eqn:Hi.
    + rewrite (step_fetch _ _ Hh Hpc Hi) in Hs. by apply exec_steps in Hs.
    + apply lookup_ge_None in Hi. lia.
  - rewrite (step_off_the_end _ Hh Hb) in Hs. injection Hs as <- _. discriminate.
Qed.

Lemma survives_running n vm : survives n vm = true -> halted vm = false.
Proof. destruct n; simpl; intros [H _]%andb_true_iff; by apply negb_true_iff. Qed.

Lemma run_halted fuel max_steps vm :
  halted vm = true -> run fuel max_steps vm = Some (Ret tt, vm, []).
Proof. intros Hh. destruct fuel; simpl; by rewrite Hh. Qed.

Lemma run_over_budget fuel max_steps vm :
  halted vm = false -> over_budget max_steps vm = true ->
  run fuel max_steps vm = Some (Raise step_limit, vm, []).
Proof.
  intros Hh Ho. destruct fuel; cbn [run]; by rewrite Hh, Ho.
Qed.

Lemma run_step fuel max_steps vm vm1 out1 :
  halted vm = false -> over_budget max_steps vm = false ->
  step vm = (Ret tt, vm1, out1) ->
  run (S fuel) max_steps vm
  = match run fuel max_steps vm1 with
    | Some (r, vm2, out2) => Some (r, vm2, (out1 ++ out2)%list)
    | None => None
    end.
Proof. intros Hh Ho Hs. cbn [run]. by rewrite Hh, Ho, Hs. Qed.

(** From a machine that survives [n] more steps and is [n] steps below
    the budget, the loop stops on the budget test after exactly [n]
    steps. *)
Lemma run_hits_budget n : forall vm B fuel,
  survives n vm = true -> steps vm + Z.of_nat n = B -> (n <= fuel)%nat ->
  exists vm' out,
    run fuel (Some B) vm = Some (Raise step_limit, vm', out) /\ steps vm' = B.
Proof.
  induction n as [|n IH]; intros vm B fuel Hs HB Hf.
  - apply survives_running in Hs. exists vm, []. split; [|lia].
    apply run_over_budget; [done|]. apply Z.leb_le. lia.
  - pose proof (survives_running _ _ Hs) as Hh.
    simpl in Hs. rewrite Hh in Hs. simpl in Hs.
    destruct (step vm) as [[[[]|e] vm1] out1] eqn:Hstep; [|done].
    pose proof (survives_running _ _ Hs) as Hh1.
    pose proof (step_counts _ _ _ Hh Hstep Hh1) as Hc.
    destruct fuel as [|fuel]; [lia|].
    destruct (IH vm1 B fuel Hs ltac:(lia) ltac:(lia)) as (vm' & out & Hr & HB').
    exists vm', (out1 ++ out)%list.
    assert (Ho : over_budget (Some B) vm = false) by (apply Z.leb_gt; lia).
    rewrite (run_step _ _ _ _ _ Hh Ho Hstep), Hr. done.
Qed.

End Run.

(** C5.  A freshly loaded or reset machine (step counter 0) whose first
    [B] steps all return with the machine still running does not get
    through [run(max_steps=B)]: whatever the number of loop iterations
    allowed beyond [B], the loop ends by raising the step-limit
    [RuntimeError], and the step counter is [B] at that moment. *)
Theorem run_step_limit (B : nat) (vm : MicrowaveVM) (fuel : nat) :
  steps vm = 0 ->
  survives B vm = true ->
  (B <= fuel)%nat ->
  exists vm' out,
    run fuel (Some (Z.of_nat B)) vm = Some (Raise step_limit, vm', out) /\
    steps vm' = Z.of_nat B.
Proof.
  intros H0 Hs Hf. apply (run_hits_budget B vm (Z.of_nat B) fuel Hs); [lia | done].
Qed.

Lemma run_step_limit_witness :
  exists vm' out,
    run 10 (Some (Z.of_nat 5)) (snd (fst (load_program spin init)))
    = Some (Raise step_limit, vm', out) /\
    steps vm' = Z.of_nat 5.
Proof.
  apply (run_step_limit 5 (snd (fst (load_program spin init))) 10).
  - reflexivity.
  - vm_compute. reflexivity.
  - lia.
Defined.

(** ** Line normalization *)

Section Normalize.

Lemma before_both raw :
  PyStr.before "#" (PyStr.before ";" raw) = before_comment raw.
Proof.
  induction raw as [|c s IH]; [done|]. simpl. unfold is_delim.
  destruct (Ascii.eqb c ";") eqn:Hs; simpl; [done|].
  destruct (Ascii.eqb c "#"); simpl; [done|]. by rewrite IH.
Qed.

Lemma normalize_before_comment raw :
  normalize raw = PyStr.strip (before_comment raw).
Proof. unfold normalize. by rewrite before_both. Qed.

Lemma before_comment_cut pre c post :
  is_delim c = true -> has_delim pre = false ->
  before_comment (pre ++ String c post) = pre.
Proof.
  intros Hc. induction pre as [|x pre IH]; simpl.
  - by rewrite Hc.
  - intros [Hx Hp]%orb_false_iff. rewrite Hx. by rewrite IH.
Qed.

Lemma before_comment_none s : has_delim s = false -> before_comment s = s.
Proof.
  induction s as [|x s IH]; simpl; [done|].
  intros [Hx Hp]%orb_false_iff. rewrite Hx. by rewrite IH.
Qed.

(** Both passes read a raw line through [normalize] only. *)
Lemma first_pass_normalize lines : forall lines' idx vm,
  map normalize lines = map normalize lines' ->
  first_pass lines idx vm = first_pass lines' idx vm.
Proof.
  induction lines as [|raw lines IH]; intros [|raw' lines'] idx vm Heq;
    try discriminate; [done|].
  injection Heq as Hn Hrest. cbn [first_pass]. rewrite <- Hn.
  destruct (PyStr.is_empty (normalize raw)); [by apply IH|].
  destruct (PyStr.endswith ":" (normalize raw)); [|by apply IH].
  destruct (PyStr.is_empty _); [done|].
  unfold bind, get. simpl. case_decide; [done|].
  unfold modify. simpl. by rewrite (IH lines' idx _ Hrest).
Qed.

Lemma second_pass_normalize lines : forall lines' vm,
  map normalize lines = map normalize lines' ->
  second_pass lines vm = second_pass lines' vm.
Proof.
  induction lines as [|raw lines IH]; intros [|raw' lines'] vm Heq;
    try discriminate; [done|].
  injection Heq as Hn Hrest. cbn [second_pass]. rewrite <- Hn.
  destruct (_ || _); [by apply IH|].
  destruct (parse (normalize raw)); [|done].
  unfold bind, modify. simpl. by rewrite (IH lines' _ Hrest).
Qed.

End Normalize.

(** C7.  A raw line [pre ++ c ++ post], where [c] is [;] or [#] and
    [pre] contains neither, normalizes to [pre] trimmed of surrounding
    whitespace: the comment runs from the first of the two characters
    to the end of the line, wherever in the line it stands.  Label
    collection and instruction parsing both treat the line exactly as
    they treat the line [pre]. *)
Theorem comment_first_delimiter_wins
    (pre post : string) (c : ascii) (above below : list string)
    (idx : Z) (vm : MicrowaveVM) :
  c = ";"%char \/ c = "#"%char ->
  has_delim pre = false ->
  let raw := pre ++ String c post in
  normalize raw = PyStr.strip pre /\
  first_pass (above ++ raw :: below) idx vm = first_pass (above ++ pre :: below) idx vm /\
  second_pass (above ++ raw :: below) vm = second_pass (above ++ pre :: below) vm.
Proof.
  intros Hc Hpre raw.
  assert (Hd : is_delim c = true) by (destruct Hc as [-> | ->]; reflexivity).
  assert (Hn : normalize raw = normalize pre).
  { rewrite !normalize_before_comment. unfold raw.
    by rewrite before_comment_cut, before_comment_none. }
  assert (Hm : map normalize (above ++ raw :: below)
               = map normalize (above ++ pre :: below)).
  { rewrite !map_app. simpl. by rewrite Hn. }
  split; [|split].
  - rewrite Hn, normalize_before_comment. by rewrite before_comment_none.
  - by apply first_pass_normalize.
  - by apply second_pass_normalize.
Qed.

Lemma comment_first_delimiter_wins_witness :
  let raw := "  INC TI" ++ String ";" "ME # x" in
  normalize raw = PyStr.strip "  INC TI" /\
  first_pass (["a:"] ++ raw :: ["HALT"]) 0 init
  = first_pass (["a:"] ++ "  INC TI" :: ["HALT"]) 0 init /\
  second_pass (["a:"] ++ raw :: ["HALT"]) init
  = second_pass (["a:"] ++ "  INC TI" :: ["HALT"]) init.
Proof.
  apply (comment_first_delimiter_wins "  INC TI" "ME # x" ";" ["a:"] ["HALT"] 0 init).
  - left. reflexivity.
  - reflexivity.
Defined.

Example comment_mid_token :
  (normalize "INC TI#ME ; x", normalize "lab;el:", normalize "  end:  # target ; here")
  = ("INC TI", "lab", "end:").
Proof. reflexivity. Qed.

(** ** The two passes of the loader *)

Section Loader.

Implicit Types (vm : MicrowaveVM) (lines : list string) (raw : string) (idx : Z).

Lemma bind_modify {B} (f : MicrowaveVM -> MicrowaveVM) (k : M B) vm :
  (modify f;;; k) vm = k (f vm).
Proof. unfold bind, modify. by destruct (k (f vm)) as [[r vm'] out]. Qed.

Lemma load_program_lines source vm :
  load_program source vm = load_lines (PyStr.splitlines source) (cleared vm).
Proof. unfold load_program. by rewrite !bind_modify. Qed.

Lemma line_kinds line :
  (PyStr.is_empty line = true /\ is_label_line line = false /\ is_code_line line = false) \/
  (PyStr.is_empty line = false /\ is_label_line line = true /\ is_code_line line = false
   /\ PyStr.endswith ":" line = true) \/
  (PyStr.is_empty line = false /\ is_label_line line = false /\ is_code_line line = true
   /\ PyStr.endswith ":" line = false).
Proof.
  unfold is_label_line, is_code_line.
  destruct (PyStr.is_empty line), (PyStr.endswith ":" line); simpl; tauto.
Qed.

(** One iteration of the first loop, by the kind of the line. *)
Lemma first_pass_blank raw lines idx vm :
  PyStr.is_empty (normalize raw) = true ->
  first_pass (raw :: lines) idx vm = first_pass lines idx vm.
Proof. intros H. cbn [first_pass]. by rewrite H. Qed.

Lemma first_pass_code raw lines idx vm :
  is_code_line (normalize raw) = true ->
  first_pass (raw :: lines) idx vm = first_pass lines (idx + 1) vm.
Proof.
  intros H. cbn [first_pass]. unfold is_code_line in H.
  apply negb_true_iff, orb_false_iff in H. destruct H as [-> ->]. done.
Qed.

Lemma first_pass_label raw lines idx vm :
  is_label_line (normalize raw) = true ->
  first_pass (raw :: lines) idx vm =
    let label := label_of (normalize raw) in
    if PyStr.is_empty label then (Raise (ValueError "Empty label definition."), vm, [])
    else if decide (is_Some (labels vm !! label))
    then (Raise (ValueError ("Duplicate label: " ++ label)), vm, [])
    else first_pass lines idx (set_labels (<[label := idx]> (labels vm)) vm).
Proof.
  intros H. cbn [first_pass]. unfold is_label_line in H.
  apply andb_true_iff in H. destruct H as [He ->]. apply negb_true_iff in He. rewrite He.
  fold (label_of (normalize raw)). cbv zeta.
  destruct (PyStr.is_empty (label_of (normalize raw))); [done|].
  unfold bind, get, modify. simpl. case_decide; [done|].
  by destruct (first_pass lines idx _) as [[r vm'] out].
Qed.

(** One iteration of the second loop. *)
Lemma second_pass_skip raw lines vm :
  is_code_line (normalize raw) = false ->
  second_pass (raw :: lines) vm = second_pass lines vm.
Proof.
  intros H. cbn [second_pass]. unfold is_code_line in H.
  apply negb_false_iff in H. by rewrite H.
Qed.

Lemma second_pass_code raw lines vm :
  is_code_line (normalize raw) = true ->
  second_pass (raw :: lines) vm =
    match parse (normalize raw) with
    | Raise e => (Raise e, vm, [])
    | Ret instr => second_pass lines (set_program (program vm ++ [instr]) vm)
    end.
Proof.
  intros H. cbn [second_pass]. unfold is_code_line in H.
  apply negb_true_iff in H. rewrite H.
  destruct (parse (normalize raw)); [|done]. by rewrite bind_modify.
Qed.

(** The first pass writes the label table only, the second pass the
    program only, and neither prints. *)
Lemma first_pass_frame lines : forall idx vm r vm' out,
  first_pass lines idx vm = (r, vm', out) ->
  vm' = set_labels (labels vm') vm /\ out = [].
Proof.
  induction lines as [|raw lines IH]; intros idx vm r vm' out H.
  - injection H as <- <- <-. by destruct vm.
  - destruct (line_kinds (normalize raw)) as [(He&_)|[(_&Hl&_)|(_&_&Hc&_)]].
    + rewrite first_pass_blank in H by done. eauto.
    + rewrite first_pass_label in H by done. cbv zeta in H.
      destruct (PyStr.is_empty _); [injection H as <- <- <-; by destruct vm|].
      case_decide; [injection H as <- <- <-; by destruct vm|].
      apply IH in H. destruct H as [H ->]. split; [|done].
      rewrite H. by destruct vm.
    + rewrite first_pass_code in H by done. eauto.
Qed.

Lemma second_pass_frame lines : forall vm r vm' out,
  second_pass lines vm = (r, vm', out) ->
  vm' = set_program (program vm') vm /\ out = [].
Proof.
  induction lines as [|raw lines IH]; intros vm r vm' out H.
  - injection H as <- <- <-. by destruct vm.
  - destruct (is_code_line (normalize raw)) eqn:Hc.
    + rewrite second_pass_code in H by done.
      destruct (parse (normalize raw)) as [instr|e].
      * apply IH in H. destruct H as [H ->]. split; [|done]. rewrite H. by destruct vm.
      * injection H as <- <- <-. by destruct vm.
    + rewrite second_pass_skip in H by done. eauto.
Qed.

Lemma count_code_app l1 l2 : count_code (l1 ++ l2) = count_code l1 + count_code l2.
Proof. induction l1 as [|raw l1 IH]; simpl; [done|]. rewrite IH. lia. Qed.

Lemma count_code_nonneg lines : 0 <= count_code lines.
Proof. induction lines as [|raw l IH]; simpl; [done|]. destruct (is_code_line _); lia. Qed.

Lemma count_code_skip above raw below :
  is_code_line (normalize raw) = false ->
  count_code (above ++ raw :: below) = count_code (above ++ below).
Proof. intros H. rewrite !count_code_app. simpl. rewrite H. lia. Qed.

(** A label, once in the table, keeps its index for the rest of the
    pass: a second definition raises instead of overwriting. *)
Lemma first_pass_keeps lines : forall idx vm r vm' out L i,
  first_pass lines idx vm = (r, vm', out) ->
  labels vm !! L = Some i -> labels vm' !! L = Some i.
Proof.
  induction lines as [|raw lines IH]; intros idx vm r vm' out L i H HL.
  - by injection H as <- <- <-.
  - destruct (line_kinds (normalize raw)) as [(He&_)|[(_&Hl&_)|(_&_&Hc&_)]].
    + rewrite first_pass_blank in H by done. eauto.
    + rewrite first_pass_label in H by done. cbv zeta in H.
      destruct (PyStr.is_empty _); [by injection H as <- <- <-|].
      case_decide as Hd; [by injection H as <- <- <-|].
      eapply IH; [exact H|]. simpl. rewrite lookup_insert_ne; [done|].
      intros <-. apply Hd. by rewrite HL.
    + rewrite first_pass_code in H by done. eauto.
Qed.

(** After a first pass that went through, a label is mapped to the
    number of instruction lines above its definition. *)
Lemma first_pass_label_index above : forall raw below idx vm vm' out,
  is_label_line (normalize raw) = true ->
  first_pass (above ++ raw :: below) idx vm = (Ret tt, vm', out) ->
  labels vm' !! label_of (normalize raw) = Some (idx + count_code above).
Proof.
  induction above as [|x above IH]; intros raw below idx vm vm' out Hraw H.
  - cbn [app] in H. rewrite first_pass_label in H by done. cbv zeta in H.
    destruct (PyStr.is_empty _); [discriminate|]. case_decide; [discriminate|].
    eapply first_pass_keeps; [exact H|]. simpl. rewrite lookup_insert_eq.
    f_equal; lia.
  - rewrite <- app_comm_cons in H.
    destruct (line_kinds (normalize x)) as [(He&_&Hc)|[(_&Hl&Hc&_)|(_&_&Hc&_)]];
      cbn [count_code]; rewrite Hc.
    + rewrite first_pass_blank in H by done. rewrite (IH _ _ _ _ _ _ Hraw H); f_equal; lia.
    + rewrite first_pass_label in H by done. cbv zeta in H.
      destruct (PyStr.is_empty _); [discriminate|]. case_decide; [discriminate|].
      rewrite (IH _ _ _ _ _ _ Hraw H); f_equal; lia.
    + rewrite first_pass_code in H by done. rewrite (IH _ _ _ _ _ _ Hraw H); f_equal; lia.
Qed.

(** A line that is not an instruction line leaves no trace in the
    second pass. *)
Lemma second_pass_drop above : forall raw below vm,
  is_code_line (normalize raw) = false ->
  second_pass (above ++ raw :: below) vm = second_pass (above ++ below) vm.
Proof.
  induction above as [|x above IH]; intros raw below vm Hraw.
  - cbn [app]. by apply second_pass_skip.
  - rewrite <- !app_comm_cons.
    destruct (is_code_line (normalize x)) eqn:Hc.
    + rewrite !second_pass_code by done. destruct (parse _); [|done]. by apply IH.
    + rewrite !second_pass_skip by done. by apply IH.
Qed.

(** After a second pass that went through, an instruction line sits at
    the slot counted by the instruction lines above it. *)
Lemma second_pass_slot above : forall raw below vm vm' out instr,
  is_code_line (normalize raw) = true ->
  parse (normalize raw) = Ret instr ->
  second_pass (above ++ raw :: below) vm = (Ret tt, vm', out) ->
  program vm' !! (length (program vm) + Z.to_nat (count_code above))%nat = Some instr.
Proof.
  assert (Hkeep : forall lines vm r vm' out (i : nat) instr,
             second_pass lines vm = (r, vm', out) ->
             program vm !! i = Some instr -> program vm' !! i = Some instr).
  { induction lines as [|x lines IH]; intros vm r vm' out i instr H Hi.
    - by injection H as <- <- <-.
    - destruct (is_code_line (normalize x)) eqn:Hc.
      + rewrite second_pass_code in H by done. destruct (parse _) as [j|e].
        * eapply IH; [exact H|]. simpl. by apply lookup_app_l_Some.
        * by injection H as <- <- <-.
      + rewrite second_pass_skip in H by done. eauto. }
  induction above as [|x above IH]; intros raw below vm vm' out instr Hraw Hp H.
  - cbn [app] in H. rewrite second_pass_code, Hp in H by done.
    eapply Hkeep; [exact H|]. simpl. rewrite Nat.add_0_r.
    rewrite lookup_app_r by done. by rewrite Nat.sub_diag.
  - rewrite <- app_comm_cons in H.
    pose proof (count_code_nonneg above) as Hnn.
    cbn [count_code]. destruct (is_code_line (normalize x)) eqn:Hc.
    + rewrite second_pass_code in H by done.
      destruct (parse (normalize x)) as [j|e]; [|discriminate].
      specialize (IH _ _ _ _ _ _ Hraw Hp H). simpl in IH.
      rewrite length_app in IH. simpl in IH.
      replace (length (program vm) + Z.to_nat (1 + count_code above))%nat
        with (length (program vm) + 1 + Z.to_nat (count_code above))%nat by lia.
      exact IH.
    + rewrite second_pass_skip in H by done.
      specialize (IH _ _ _ _ _ _ Hraw Hp H). exact IH.
Qed.

Lemma second_pass_length lines : forall vm vm' out,
  second_pass lines vm = (Ret tt, vm', out) ->
  Z.of_nat (length (program vm')) = Z.of_nat (length (program vm)) + count_code lines.
Proof.
  induction lines as [|x lines IH]; intros vm vm' out H.
  - injection H as <- _. simpl. lia.
  - cbn [count_code]. destruct (is_code_line (normalize x)) eqn:Hc.
    + rewrite second_pass_code in H by done.
      destruct (parse (normalize x)) as [j|e]; [|discriminate].
      apply IH in H. simpl in H. rewrite length_app in H. simpl in H. lia.
    + rewrite second_pass_skip in H by done. apply IH in H. lia.
Qed.

(** What makes each pass go through. *)
Lemma first_pass_ok lines : forall idx vm,
  forallb (fun l => negb (PyStr.is_empty l)) (label_names lines) = true ->
  NoDup (label_names lines) ->
  (forall L, L ∈ label_names lines -> labels vm !! L = None) ->
  exists vm', first_pass lines idx vm = (Ret tt, vm', []).
Proof.
  induction lines as [|raw lines IH]; intros idx vm Hne Hnd Hfresh.
  - by exists vm.
  - cbn [label_names] in *.
    destruct (line_kinds (normalize raw)) as [(He&Hl&_)|[(_&Hl&_)|(_&Hl&Hc&_)]];
      rewrite Hl in *.
    + rewrite first_pass_blank by done. by apply IH.
    + rewrite first_pass_label by done. cbv zeta.
      cbn [forallb] in Hne. apply andb_true_iff in Hne. destruct Hne as [Hne1 Hne].
      apply negb_true_iff in Hne1. rewrite Hne1.
      apply NoDup_cons in Hnd. destruct Hnd as [Hnotin Hnd].
      case_decide as Hd.
      { rewrite (Hfresh (label_of (normalize raw))) in Hd by (left).
        by destruct Hd. }
      apply IH; [done | done |]. intros L HL. simpl.
      rewrite lookup_insert_ne by (intros <-; done).
      apply Hfresh. by right.
    + rewrite first_pass_code by done. by apply IH.
Qed.

Lemma second_pass_ok lines : forall vm,
  forallb (fun raw => negb (is_code_line (normalize raw))
                      || is_Ret (parse (normalize raw))) lines = true ->
  exists vm', second_pass lines vm = (Ret tt, vm', []).
Proof.
  induction lines as [|raw lines IH]; intros vm Hok.
  - by exists vm.
  - cbn [forallb] in Hok. apply andb_true_iff in Hok. destruct Hok as [H1 Hok].
    destruct (is_code_line (normalize raw)) eqn:Hc.
    + rewrite second_pass_code by done. simpl in H1.
      destruct (parse (normalize raw)); [|done]. by apply IH.
    + rewrite second_pass_skip by done. by apply IH.
Qed.

Lemma load_lines_inv lines vm r vm' out :
  load_lines lines vm = (r, vm', out) ->
  (exists e, r = Raise e /\ first_pass lines 0 vm = (Raise e, vm', out)) \/
  (exists vm1, first_pass lines 0 vm = (Ret tt, vm1, []) /\
               second_pass lines vm1 = (r, vm', out)).
Proof.
  unfold load_lines, bind.
  destruct (first_pass lines 0 vm) as [[[[]|e] vm1] out1] eqn:H1.
  - apply first_pass_frame in H1 as H1'. destruct H1' as [_ ->].
    destruct (second_pass lines vm1) as [[r2 vm2] out2] eqn:H2.
    intros [= <- <- <-]. right. by exists vm1.
  - intros [= <- <- <-]. left. by exists e.
Qed.

Lemma load_lines_first_ok lines vm vm1 :
  first_pass lines 0 vm = (Ret tt, vm1, []) ->
  load_lines lines vm = second_pass lines vm1.
Proof.
  intros H. unfold load_lines, bind. rewrite H.
  by destruct (second_pass lines vm1) as [[r2 vm2] out2].
Qed.

Lemma load_lines_ok lines vm :
  well_formed lines = true -> labels vm = ∅ ->
  exists vm1 vm',
    first_pass lines 0 vm = (Ret tt, vm1, []) /\
    second_pass lines vm1 = (Ret tt, vm', []) /\
    load_lines lines vm = (Ret tt, vm', []).
Proof.
  unfold well_formed. intros [[Hne Hnd]%andb_true_iff Hok]%andb_true_iff Hl.
  apply bool_decide_eq_true in Hnd.
  destruct (first_pass_ok lines 0 vm Hne Hnd) as [vm1 H1].
  { intros L _. by rewrite Hl. }
  destruct (second_pass_ok lines vm1 Hok) as [vm' H2].
  exists vm1, vm'. by rewrite (load_lines_first_ok _ _ _ H1).
Qed.

Lemma is_empty_true s : PyStr.is_empty s = true -> s = "".
Proof. by destruct s. Qed.

(** Where a failing pass stopped: the lines above the offending one
    went through, and the machine is as they left it. *)
Lemma first_pass_raises lines : forall idx vm e vm' out,
  first_pass lines idx vm = (Raise e, vm', out) ->
  exists above raw below,
    lines = (above ++ raw :: below)%list /\
    first_pass above idx vm = (Ret tt, vm', []) /\
    is_label_line (normalize raw) = true /\
    ((label_of (normalize raw) = "" /\ e = ValueError "Empty label definition.") \/
     (is_Some (labels vm' !! label_of (normalize raw)) /\
      e = ValueError ("Duplicate label: " ++ label_of (normalize raw)))).
Proof.
  induction lines as [|x lines IH]; intros idx vm e vm' out H; [discriminate|].
  destruct (line_kinds (normalize x)) as [(He&_)|[(_&Hl&_)|(_&_&Hc&_)]].
  - rewrite first_pass_blank in H by done.
    destruct (IH _ _ _ _ _ H) as (above & raw & below & -> & Ha & Hr).
    exists (x :: above), raw, below. split; [done|].
    by rewrite first_pass_blank.
  - rewrite first_pass_label in H by done. cbv zeta in H.
    destruct (PyStr.is_empty (label_of (normalize x))) eqn:Hemp.
    { injection H as <- <- <-. exists [], x, lines.
      repeat split; [done|]. left. split; [by apply is_empty_true | done]. }
    case_decide as Hd.
    { injection H as <- <- <-. exists [], x, lines.
      repeat split; [done|]. by right. }
    destruct (IH _ _ _ _ _ H) as (above & raw & below & -> & Ha & Hr).
    exists (x :: above), raw, below. split; [done|].
    rewrite first_pass_label by done. cbv zeta. rewrite Hemp.
    case_decide; [done|]. done.
  - rewrite first_pass_code in H by done.
    destruct (IH _ _ _ _ _ H) as (above & raw & below & -> & Ha & Hr).
    exists (x :: above), raw, below. split; [done|].
    by rewrite first_pass_code.
Qed.

Lemma second_pass_raises lines : forall vm e vm' out,
  second_pass lines vm = (Raise e, vm', out) ->
  exists above raw below,
    lines = (above ++ raw :: below)%list /\
    second_pass above vm = (Ret tt, vm', []) /\
    is_code_line (normalize raw) = true /\
    parse (normalize raw) = Raise e.
Proof.
  induction lines as [|x lines IH]; intros vm e vm' out H; [discriminate|].
  destruct (is_code_line (normalize x)) eqn:Hc.
  - rewrite second_pass_code in H by done.
    destruct (parse (normalize x)) as [j|e'] eqn:Hp.
    + destruct (IH _ _ _ _ H) as (above & raw & below & -> & Ha & Hr).
      exists (x :: above), raw, below. split; [done|].
      by rewrite second_pass_code, Hp.
    + injection H as <- <- <-. by exists [], x, lines.
  - rewrite second_pass_skip in H by done.
    destruct (IH _ _ _ _ H) as (above & raw & below & -> & Ha & Hr).
    exists (x :: above), raw, below. split; [done|].
    by rewrite second_pass_skip.
Qed.

Lemma first_pass_names lines : forall idx vm vm' out,
  first_pass lines idx vm = (Ret tt, vm', out) ->
  forallb (fun l => negb (PyStr.is_empty l)) (label_names lines) = true /\
  NoDup (label_names lines) /\
  (forall L, L ∈ label_names lines -> labels vm !! L = None).
Proof.
  induction lines as [|raw lines IH]; intros idx vm vm' out H.
  - split_and!; [done | constructor | by intros L ?%elem_of_nil].
  - cbn [label_names].
    destruct (line_kinds (normalize raw)) as [(He&Hl&_)|[(_&Hl&_)|(_&Hl&Hc&_)]];
      rewrite Hl.
    + rewrite first_pass_blank in H by done. eauto.
    + rewrite first_pass_label in H by done. cbv zeta in H.
      destruct (PyStr.is_empty (label_of (normalize raw))) eqn:Hemp; [discriminate|].
      case_decide as Hd; [discriminate|].
      destruct (IH _ _ _ _ H) as (Hne & Hnd & Hfresh).
      assert (Hnone : labels vm !! label_of (normalize raw) = None).
      { destruct (labels vm !! label_of (normalize raw)) eqn:E; [|done].
        exfalso. apply Hd. by eexists. }
      split_and!.
      * cbn [forallb]. by rewrite Hemp.
      * apply NoDup_cons. split; [|done]. intros Hin.
        specialize (Hfresh _ Hin). simpl in Hfresh.
        by rewrite lookup_insert_eq in Hfresh.
      * intros L [->|Hin]%elem_of_cons; [done|].
        specialize (Hfresh _ Hin). simpl in Hfresh.
        apply lookup_insert_None in Hfresh. tauto.
    + rewrite first_pass_code in H by done. eauto.
Qed.

Lemma second_pass_parses lines : forall vm vm' out,
  second_pass lines vm = (Ret tt, vm', out) ->
  forallb (fun raw => negb (is_code_line (normalize raw))
                      || is_Ret (parse (normalize raw))) lines = true.
Proof.
  induction lines as [|raw lines IH]; intros vm vm' out H; [done|].
  cbn [forallb]. destruct (is_code_line (normalize raw)) eqn:Hc.
  - rewrite second_pass_code in H by done.
    destruct (parse (normalize raw)); [|discriminate]. simpl. eauto.
  - rewrite second_pass_skip in H by done. simpl. eauto.
Qed.

(** The well-formed texts are exactly the ones the two passes accept. *)
Lemma well_formed_iff_loads lines vm :
  labels vm = ∅ ->
  well_formed lines = true <-> exists vm', load_lines lines vm = (Ret tt, vm', []).
Proof.
  intros Hl. split.
  - intros Hwf. destruct (load_lines_ok _ _ Hwf Hl) as (vm1 & vm' & _ & _ & H). eauto.
  - intros [vm' H]. apply load_lines_inv in H.
    destruct H as [(e & [=] & _)|(vm1 & H1 & H2)].
    apply first_pass_names in H1. destruct H1 as (Hne & Hnd & _).
    apply second_pass_parses in H2. unfold well_formed.
    rewrite Hne, H2. by rewrite bool_decide_eq_true_2.
Qed.

End Loader.

(** ** Failed loads *)

(** C1, as stated, fails.  Loading [partial_source] into a fresh
    machine raises the unknown-opcode [ValueError] on the third line,
    and the machine is left holding the label and the instruction of
    the first two lines: its program and its label table are neither
    the ones it had before the call nor empty. *)
Lemma load_failure_leaves_partial_program :
  load_program partial_source init
  = (Raise (ValueError "Unknown opcode: FOO"),
     set_labels (<["start" := 0]> ∅) (set_program [mkInstr "INC" ["TIME"]] init),
     []) /\
  program (snd (fst (load_program partial_source init))) <> program init /\
  program (snd (fst (load_program partial_source init))) <> [] /\
  labels (snd (fst (load_program partial_source init))) <> labels init /\
  labels (snd (fst (load_program partial_source init))) <> ∅.
Proof.
  assert (H : load_program partial_source init
              = (Raise (ValueError "Unknown opcode: FOO"),
                 set_labels (<["start" := 0]> ∅)
                   (set_program [mkInstr "INC" ["TIME"]] init),
                 [])) by (vm_compute; reflexivity).
  rewrite H. simpl. repeat split; discriminate.
Qed.

(** C1, amended.  When [load_program] raises, the program and the label
    table the machine held before the call are gone and the program
    counter, the halted flag and the step counter are rewound; the
    registers are untouched and nothing is printed.  What the machine
    holds is what the loader had built from the new text when it
    reached the offending line.  Either that line is a label definition
    with an empty or an already defined name: then the program is empty
    and the label table holds the labels of the lines above it.  Or it
    is an instruction line that the validation rejects: then the label
    table is the complete one of the new text and the program holds one
    instruction for each instruction line above the offending line. *)
Theorem load_failure_state
    (source : string) (vm : MicrowaveVM) (e : exn) (vm' : MicrowaveVM) (out : list string) :
  load_program source vm = (Raise e, vm', out) ->
  out = [] /\ registers vm' = registers vm /\
  pc vm' = 0 /\ halted vm' = false /\ steps vm' = 0 /\
  (forall old, registers old = registers vm ->
     load_program source old = (Raise e, vm', out)) /\
  exists above raw below,
    PyStr.splitlines source = (above ++ raw :: below)%list /\
    ((is_label_line (normalize raw) = true /\
      ((label_of (normalize raw) = "" /\ e = ValueError "Empty label definition.") \/
       (is_Some (labels vm' !! label_of (normalize raw)) /\
        e = ValueError ("Duplicate label: " ++ label_of (normalize raw)))) /\
      first_pass above 0 (cleared vm) = (Ret tt, vm', []) /\
      program vm' = [])
     \/
     (is_code_line (normalize raw) = true /\
      parse (normalize raw) = Raise e /\
      (exists vm1,
         first_pass (PyStr.splitlines source) 0 (cleared vm) = (Ret tt, vm1, []) /\
         second_pass above vm1 = (Ret tt, vm', []) /\
         labels vm' = labels vm1) /\
      Z.of_nat (length (program vm')) = count_code above)).
Proof.
  intros H.
  assert (Hold : forall old, registers old = registers vm ->
                   load_program source old = (Raise e, vm', out)).
  { intros old Hr. rewrite load_program_lines.
    replace (cleared old) with (cleared vm); [by rewrite <- load_program_lines|].
    unfold cleared, set_steps, set_halted, set_pc, set_labels, set_program. simpl.
    by rewrite Hr. }
  rewrite load_program_lines in H.
  apply load_lines_inv in H. destruct H as [(e' & [= <-] & H1)|(vm1 & H1 & H2)].
  - pose proof (first_pass_frame _ _ _ _ _ _ H1) as [Hf ->].
    destruct (first_pass_raises _ _ _ _ _ _ H1) as (above & raw & below & Hl & Ha & Hr & He).
    assert (Hfr : registers vm' = registers vm /\ pc vm' = 0 /\ halted vm' = false /\
                  steps vm' = 0 /\ program vm' = []) by (by rewrite Hf).
    destruct Hfr as (? & ? & ? & ? & ?).
    split_and!; try done.
    exists above, raw, below. split; [done|]. by left.
  - pose proof (first_pass_frame _ _ _ _ _ _ H1) as [Hf1 _].
    pose proof (second_pass_frame _ _ _ _ _ H2) as [Hf2 ->].
    destruct (second_pass_raises _ _ _ _ _ H2) as (above & raw & below & Hl & Ha & Hr & Hp).
    assert (Hfr : registers vm' = registers vm /\ pc vm' = 0 /\ halted vm' = false /\
                  steps vm' = 0 /\ labels vm' = labels vm1 /\ program vm1 = []).
    { rewrite Hf2. simpl. rewrite Hf1. done. }
    destruct Hfr as (? & ? & ? & ? & ? & Hp1).
    assert (Hlen : Z.of_nat (length (program vm')) = count_code above).
    { rewrite (second_pass_length _ _ _ _ Ha), Hp1. simpl. lia. }
    split_and!; try done.
    exists above, raw, below. split; [done|]. right.
    split_and!; try done. by exists vm1.
Qed.

Lemma load_failure_state_witness :
  let vm' := set_labels (<["start" := 0]> ∅) (set_program [mkInstr "INC" ["TIME"]] init) in
  load_program partial_source init = (Raise (ValueError "Unknown opcode: FOO"), vm', []) /\
  registers vm' = registers init /\
  pc vm' = 0 /\ halted vm' = false /\ steps vm' = 0 /\
  (forall old, registers old = registers init ->
     load_program partial_source old = (Raise (ValueError "Unknown opcode: FOO"), vm', [])).
Proof.
  assert (Hload : load_program partial_source init
                  = (Raise (ValueError "Unknown opcode: FOO"),
                     set_labels (<["start" := 0]> ∅)
                       (set_program [mkInstr "INC" ["TIME"]] init),
                     [])) by (vm_compute; reflexivity).
  destruct (load_failure_state partial_source init
              (ValueError "Unknown opcode: FOO")
              (set_labels (<["start" := 0]> ∅)
                 (set_program [mkInstr "INC" ["TIME"]] init)) [] Hload)
    as (_ & Hr & Hpc & Hh & Hs & Hold & _).
  cbv zeta. split; [exact Hload|]. split; [exact Hr|]. split; [exact Hpc|].
  split; [exact Hh|]. split; [exact Hs|]. exact Hold.
Defined.

(** ** Labels *)

(** C10.  A raw line whose normalized form is not empty and ends in a
    colon is a label definition for both passes, whatever stands before
    the colon.  The first pass handles it as a definition of the name
    [line[:-1].strip()]: it raises on an empty or already defined name
    and otherwise records the name at the current instruction index
    without advancing the index.  The second pass goes over the text as
    if the line were not there: the line is not tokenized or validated
    and fills no slot.  So after a load that went through, the name is
    mapped to the number of instruction lines above the line, and the
    program has one instruction per instruction line of the rest of the
    text. *)
Theorem colon_line_defines_label
    (source : string) (above : list string) (raw : string) (below : list string)
    (vm vm' : MicrowaveVM) (out : list string) :
  PyStr.splitlines source = (above ++ raw :: below)%list ->
  PyStr.is_empty (normalize raw) = false ->
  PyStr.endswith ":" (normalize raw) = true ->
  load_program source vm = (Ret tt, vm', out) ->
  let label := PyStr.strip (PyStr.drop_last (normalize raw)) in
  labels vm' !! label = Some (count_code above) /\
  Z.of_nat (length (program vm')) = count_code (above ++ below) /\
  (forall m, second_pass (above ++ raw :: below) m = second_pass (above ++ below) m) /\
  (forall rest idx m,
     first_pass (raw :: rest) idx m =
       if PyStr.is_empty label then (Raise (ValueError "Empty label definition."), m, [])
       else if decide (is_Some (labels m !! label))
       then (Raise (ValueError ("Duplicate label: " ++ label)), m, [])
       else first_pass rest idx (set_labels (<[label := idx]> (labels m)) m)).
Proof.
  intros Hl He Hc Hload label. subst label. fold (label_of (normalize raw)).
  assert (Hlab : is_label_line (normalize raw) = true)
    by (unfold is_label_line; by rewrite He, Hc).
  assert (Hnc : is_code_line (normalize raw) = false)
    by (unfold is_code_line; by rewrite He, Hc).
  rewrite load_program_lines, Hl in Hload.
  apply load_lines_inv in Hload. destruct Hload as [(e & [=] & _)|(vm1 & H1 & H2)].
  pose proof (first_pass_frame _ _ _ _ _ _ H1) as [Hf1 _].
  pose proof (second_pass_frame _ _ _ _ _ H2) as [Hf2 _].
  split_and!.
  - rewrite Hf2. simpl.
    rewrite (first_pass_label_index _ _ _ _ _ _ _ Hlab H1). f_equal; lia.
  - rewrite (second_pass_length _ _ _ _ H2), Hf1. simpl.
    by rewrite count_code_skip.
  - intros m. by apply second_pass_drop.
  - intros rest idx m. by rewrite first_pass_label.
Qed.

Lemma colon_line_defines_label_witness :
  let vm' := set_labels (<["GOTO x" := 0]> ∅) (set_program [mkInstr "HALT" []] init) in
  labels vm' !! PyStr.strip (PyStr.drop_last (normalize "GOTO x:")) = Some (count_code []) /\
  Z.of_nat (length (program vm')) = count_code ([] ++ ["HALT"]).
Proof.
  assert (Hload : load_program colon_source init
                  = (Ret tt,
                     set_labels (<["GOTO x" := 0]> ∅) (set_program [mkInstr "HALT" []] init),
                     [])) by (vm_compute; reflexivity).
  destruct (colon_line_defines_label colon_source [] "GOTO x:" ["HALT"] init _ _
              eq_refl eq_refl eq_refl Hload) as (H1 & H2 & _).
  cbv zeta. split; [exact H1 | exact H2].
Defined.

Example colon_line_goto_x :
  load_program colon_source init
  = (Ret tt, set_labels (<["GOTO x" := 0]> ∅) (set_program [mkInstr "HALT" []] init), []).
Proof. vm_compute. reflexivity. Qed.

Section ForwardReference.

Implicit Types (vm : MicrowaveVM) (instr : Instr).

(** A GOTO, or a DECJZ on a register at 0, moves the program counter
    to the index the label table holds for its target. *)
Lemma step_jumps vm instr L i :
  halted vm = false -> 0 <= pc vm ->
  program vm !! Z.to_nat (pc vm) = Some instr ->
  labels vm !! L = Some i ->
  instr = mkInstr "GOTO" [L] \/
  (exists a0, instr = mkInstr "DECJZ" [a0; L] /\ reg_get vm (regname a0) = 0) ->
  step vm = (Ret tt, set_pc i (set_steps (steps vm + 1) vm), []).
Proof.
  intros Hh Hpc Hi HL [-> | (a0 & -> & Hz)].
  - rewrite (step_fetch _ _ Hh Hpc Hi). unfold exec. simpl.
    unfold bind, index, ret, jump, bind, get. simpl. by rewrite HL.
  - rewrite (decjz_like vm a0 L [] Hh Hpc Hi). by rewrite Hz, HL.
Qed.

End ForwardReference.

(** C3.  In a well-formed text, let an instruction line [ref] be
    [GOTO L] or [DECJZ r L] and let a later line [def] define the label
    [L].  Then [load_program] goes through; the label table maps [L] to
    the number of instruction lines above [def], label lines counting
    for nothing; that is the slot of the first instruction line below
    [def], when there is one; and the step that executes [ref] (for
    DECJZ: with its register at 0) sets the program counter to that
    index. *)
Theorem forward_reference
    (source : string) (above : list string) (ref : string) (mid : list string)
    (def : string) (below : list string) (instr : Instr) (L : string)
    (vm0 : MicrowaveVM) :
  PyStr.splitlines source = (above ++ ref :: mid ++ def :: below)%list ->
  well_formed (PyStr.splitlines source) = true ->
  is_code_line (normalize ref) = true ->
  parse (normalize ref) = Ret instr ->
  instr = mkInstr "GOTO" [L] \/ (exists a0, instr = mkInstr "DECJZ" [a0; L]) ->
  is_label_line (normalize def) = true ->
  label_of (normalize def) = L ->
  let target := count_code (above ++ ref :: mid) in
  exists vm,
    load_program source vm0 = (Ret tt, vm, []) /\
    labels vm !! L = Some target /\
    program vm !! Z.to_nat (count_code above) = Some instr /\
    (forall gap next rest instr',
       below = (gap ++ next :: rest)%list -> count_code gap = 0 ->
       is_code_line (normalize next) = true -> parse (normalize next) = Ret instr' ->
       program vm !! Z.to_nat target = Some instr') /\
    (forall m,
       program m = program vm -> labels m = labels vm ->
       halted m = false -> pc m = count_code above ->
       (forall a0, instr = mkInstr "DECJZ" [a0; L] -> reg_get m (regname a0) = 0) ->
       step m = (Ret tt, set_pc target (set_steps (steps m + 1) m), [])).
Proof.
  intros Hl Hwf Hrc Hp Hinstr Hdl HL target.
  destruct (load_lines_ok _ (cleared vm0) Hwf eq_refl) as (vm1 & vm & H1 & H2 & Hload).
  exists vm. rewrite load_program_lines.
  pose proof (first_pass_frame _ _ _ _ _ _ H1) as [Hf1 _].
  pose proof (second_pass_frame _ _ _ _ _ H2) as [Hf2 _].
  assert (Hp1 : program vm1 = []) by (by rewrite Hf1).
  assert (Hlab : labels vm !! L = Some target).
  { rewrite Hf2. simpl. rewrite <- HL. rewrite Hl in H1.
    replace (above ++ ref :: mid ++ def :: below)%list
      with ((above ++ ref :: mid) ++ def :: below)%list in H1
      by (by rewrite <- app_assoc).
    rewrite (first_pass_label_index _ _ _ _ _ _ _ Hdl H1). unfold target. f_equal; lia. }
  assert (Hslot : program vm !! Z.to_nat (count_code above) = Some instr).
  { rewrite Hl in H2.
    pose proof (second_pass_slot _ _ _ _ _ _ _ Hrc Hp H2) as Hs.
    by rewrite Hp1 in Hs. }
  split_and!; try done.
  - intros gap next rest instr' -> Hgap Hnc Hnp.
    rewrite Hl in H2.
    replace (above ++ ref :: mid ++ def :: gap ++ next :: rest)%list
      with ((above ++ ref :: mid ++ def :: gap) ++ next :: rest)%list in H2
      by (rewrite <- app_assoc; simpl; by rewrite <- app_assoc).
    pose proof (second_pass_slot _ _ _ _ _ _ _ Hnc Hnp H2) as Hs.
    rewrite Hp1 in Hs. simpl in Hs.
    replace (count_code (above ++ ref :: mid ++ def :: gap)) with target in Hs; [done|].
    unfold target. rewrite !count_code_app. cbn [count_code]. rewrite !count_code_app.
    cbn [count_code]. rewrite Hgap.
    assert (Hdc : is_code_line (normalize def) = false).
    { destruct (line_kinds (normalize def)) as [(_&Hx&_)|[(_&_&Hx&_)|(_&Hx&_)]];
        congruence. }
    rewrite Hdc. lia.
  - intros m Hpm Hlm Hh Hpc Hz.
    apply step_jumps with (instr := instr) (L := L).
    + done.
    + rewrite Hpc. apply count_code_nonneg.
    + by rewrite Hpm, Hpc.
    + by rewrite Hlm.
    + destruct Hinstr as [-> | (a0 & ->)]; [by left|].
      right. exists a0. split; [done|]. by apply Hz.
Qed.

Lemma forward_reference_witness :
  exists vm,
    load_program forward_source init = (Ret tt, vm, []) /\
    labels vm !! "end" = Some 2 /\
    program vm !! 0%nat = Some (mkInstr "GOTO" ["end"]) /\
    program vm !! 2%nat = Some (mkInstr "HALT" []) /\
    step vm = (Ret tt, set_pc 2 (set_steps (steps vm + 1) vm), []).
Proof.
  destruct (forward_reference forward_source
              [] "  GOTO end" ["  INC TIME"] "end:" ["  HALT"]
              (mkInstr "GOTO" ["end"]) "end" init
              eq_refl eq_refl eq_refl eq_refl (or_introl eq_refl) eq_refl eq_refl)
    as (vm & Hload & Hlab & Hslot & Hnext & Hstep).
  exists vm. split; [exact Hload|]. split; [exact Hlab|]. split; [exact Hslot|].
  split.
  - apply (Hnext [] "  HALT" [] (mkInstr "HALT" [])); reflexivity.
  - assert (Hvm : vm = set_labels (<["end" := 2]> ∅)
                         (set_program [mkInstr "GOTO" ["end"]; mkInstr "INC" ["TIME"];
                                       mkInstr "HALT" []] init)).
    { assert (Hc : load_program forward_source init
                   = (Ret tt,
                      set_labels (<["end" := 2]> ∅)
                        (set_program [mkInstr "GOTO" ["end"]; mkInstr "INC" ["TIME"];
                                      mkInstr "HALT" []] init),
                      [])) by (vm_compute; reflexivity).
      rewrite Hc in Hload. by injection Hload. }
    apply Hstep; try reflexivity.
    + by rewrite Hvm.
    + by rewrite Hvm.
    + intros a0 [=].
Defined.

(** ** Negative registers *)

(** C9.  A one-line text whose line tokenizes to [SET r lit], with [r]
    one of the two registers and [lit] an integer literal of negative
    value [v], is accepted by the loader, and the first step of the
    loaded machine stores [v] in the register and advances the program
    counter to 1.  A running machine at a DECJZ whose register holds a
    negative [n] does not jump: the register becomes [n - 1] and the
    program counter advances by one.  Registers are not kept
    non-negative. *)
Theorem negative_registers
    (source raw t a0 lit : string) (v : Z) (vm0 : MicrowaveVM)
    (vm : MicrowaveVM) (b0 target : string) (rest : list string) (n : Z) :
  PyStr.splitlines source = [raw] ->
  is_code_line (normalize raw) = true ->
  PyStr.split (PyStr.replace "," " " (normalize raw)) = [t; a0; lit] ->
  PyStr.upper t = "SET" ->
  is_register a0 = true ->
  PyStr.int lit = Some v ->
  v < 0 ->
  halted vm = false ->
  0 <= pc vm ->
  program vm !! Z.to_nat (pc vm) = Some (mkInstr "DECJZ" (b0 :: target :: rest)) ->
  reg_get vm (regname b0) = n ->
  n < 0 ->
  (exists loaded after,
     load_program source vm0 = (Ret tt, loaded, []) /\
     program loaded = [mkInstr "SET" [a0; lit]] /\
     step loaded = (Ret tt, after, []) /\
     registers after !! regname a0 = Some v /\
     pc after = 1) /\
  step vm = (Ret tt,
             set_pc (pc vm + 1)
               (set_registers (<[regname b0 := n - 1]> (registers vm))
                  (set_steps (steps vm + 1) vm)),
             []).
Proof.
  intros Hl Hc Htok Hop Hreg Hint Hv Hh Hpc Hi Hn Hneg. split.
  - assert (Hparse : parse (normalize raw) = Ret (mkInstr "SET" [a0; lit])).
    { unfold parse. rewrite Htok, Hop. simpl. by rewrite Hreg, Hint. }
    set (loaded := set_program [mkInstr "SET" [a0; lit]] (cleared vm0)).
    assert (Hload : load_program source vm0 = (Ret tt, loaded, [])).
    { rewrite load_program_lines, Hl.
      rewrite (load_lines_first_ok _ _ (cleared vm0)).
      - by rewrite second_pass_code, Hparse.
      - by rewrite first_pass_code. }
    assert (Hstep : step loaded
                    = (Ret tt,
                       set_pc 1 (set_registers (<[regname a0 := v]> (registers vm0))
                                   (set_steps 1 loaded)),
                       [])).
    { rewrite (step_fetch loaded (mkInstr "SET" [a0; lit])); [|done|done|done].
      unfold exec. simpl. unfold bind, index, to_int. simpl. by rewrite Hint. }
    eexists loaded, _. split_and!; [done | done | exact Hstep | | done].
    simpl. apply lookup_insert_eq.
  - rewrite (decjz_like vm b0 target rest Hh Hpc Hi). rewrite Hn.
    destruct (Z.eqb_spec n 0); [lia | done].
Qed.

Lemma negative_registers_witness :
  (exists loaded after,
     load_program "SET time, -5" init = (Ret tt, loaded, []) /\
     program loaded = [mkInstr "SET" ["time"; "-5"]] /\
     step loaded = (Ret tt, after, []) /\
     registers after !! regname "time" = Some (-5) /\
     pc after = 1) /\
  let vm := set_registers (<["TIME" := -5]> (registers init))
              (vm_of [mkInstr "DECJZ" ["TIME"; "end"]]) in
  step vm = (Ret tt,
             set_pc (pc vm + 1)
               (set_registers (<[regname "TIME" := -5 - 1]> (registers vm))
                  (set_steps (steps vm + 1) vm)),
             []).
Proof.
  apply (negative_registers "SET time, -5" "SET time, -5" "SET" "time" "-5" (-5) init
           (set_registers (<["TIME" := -5]> (registers init))
              (vm_of [mkInstr "DECJZ" ["TIME"; "end"]]))
           "TIME" "end" [] (-5)).
  - reflexivity.
  - reflexivity.
  - reflexivity.
  - reflexivity.
  - reflexivity.
  - reflexivity.
  - lia.
  - reflexivity.
  - simpl. lia.
  - reflexivity.
  - reflexivity.
  - lia.
Defined.

Example negative_register_run :
  let '(_, vm, _) := load_program ("SET TIME -5" ++ LF ++ "DECJZ TIME end" ++ LF) init in
  match run 10 None vm with
  | Some (r, vm', out) =>
      r = Ret tt /\ registers vm' !! "TIME" = Some (-6) /\ pc vm' = 2 /\
      steps vm' = 2 /\ out = []
  | None => False
  end.
Proof. vm_compute. auto. Qed.

(** * Further properties of the engine and the loader *)

(** ** One step, instruction by instruction *)

Section Instructions.

Implicit Types (vm : MicrowaveVM) (instr : Instr).

Lemma step_set vm a0 lit v :
  halted vm = false -> 0 <= pc vm ->
  program vm !! Z.to_nat (pc vm) = Some (mkInstr "SET" [a0; lit]) ->
  PyStr.int lit = Some v ->
  step vm = (Ret tt,
             set_pc (pc vm + 1)
               (set_registers (<[regname a0 := v]> (registers vm))
                  (set_steps (steps vm + 1) vm)),
             []).
Proof.
  intros Hh Hpc Hi Hint. rewrite (step_fetch _ _ Hh Hpc Hi).
  unfold exec. simpl. unfold bind, index, to_int. simpl. by rewrite Hint.
Qed.

Lemma step_inc vm a0 :
  halted vm = false -> 0 <= pc vm ->
  program vm !! Z.to_nat (pc vm) = Some (mkInstr "INC" [a0]) ->
  step vm = (Ret tt,
             set_pc (pc vm + 1)
               (set_registers
                  (<[regname a0 := reg_get vm (regname a0) + 1]> (registers vm))
                  (set_steps (steps vm + 1) vm)),
             []).
Proof. intros Hh Hpc Hi. by rewrite (step_fetch _ _ Hh Hpc Hi). Qed.

Lemma step_goto vm L :
  halted vm = false -> 0 <= pc vm ->
  program vm !! Z.to_nat (pc vm) = Some (mkInstr "GOTO" [L]) ->
  step vm =
    match labels vm !! L with
    | Some i => (Ret tt, set_pc i (set_steps (steps vm + 1) vm), [])
    | None => (Raise (ValueError ("Unknown label: " ++ L)), set_steps (steps vm + 1) vm, [])
    end.
Proof.
  intros Hh Hpc Hi. rewrite (step_fetch _ _ Hh Hpc Hi).
  unfold exec. simpl. unfold bind, index, ret, jump, bind, get. simpl.
  by destruct (labels vm !! L).
Qed.

Lemma step_print vm :
  halted vm = false -> 0 <= pc vm ->
  program vm !! Z.to_nat (pc vm) = Some (mkInstr "PRINT" []) ->
  step vm = (Ret tt, set_pc (pc vm + 1) (set_steps (steps vm + 1) vm),
             ["TIME: " ++ PyStr.str (reg_get vm "TIME")]).
Proof. intros Hh Hpc Hi. by rewrite (step_fetch _ _ Hh Hpc Hi). Qed.

Lemma step_halt vm :
  halted vm = false -> 0 <= pc vm ->
  program vm !! Z.to_nat (pc vm) = Some (mkInstr "HALT" []) ->
  step vm = (Ret tt, set_halted true (set_steps (steps vm + 1) vm), ["BEEEEEEP!"]).
Proof. intros Hh Hpc Hi. by rewrite (step_fetch _ _ Hh Hpc Hi). Qed.

Lemma is_register_name a0 :
  is_register a0 = true -> regname a0 = "TIME" \/ regname a0 = "POWER".
Proof.
  unfold is_register, regname. intros [H|H]%orb_true_iff; apply String.eqb_eq in H; auto.
Qed.

(** The shapes a validated instruction can have. *)
Lemma valid_instr_cases instr :
  valid_instr instr = true ->
  (exists a0 lit v, instr = mkInstr "SET" [a0; lit] /\ is_register a0 = true
                    /\ PyStr.int lit = Some v) \/
  (exists a0, instr = mkInstr "INC" [a0] /\ is_register a0 = true) \/
  (exists a0 L, instr = mkInstr "DECJZ" [a0; L] /\ is_register a0 = true) \/
  (exists L, instr = mkInstr "GOTO" [L]) \/
  instr = mkInstr "PRINT" [] \/
  instr = mkInstr "HALT" [].
Proof.
  destruct instr as [o a]. unfold valid_instr. simpl.
  destruct a as [|a0 [|a1 [|a2 a]]]; [| | |done].
  - intros [H|H]%orb_true_iff; apply String.eqb_eq in H; subst; auto 10.
  - intros [[H R]%andb_true_iff|H]%orb_true_iff; [|apply String.eqb_eq in H; subst; eauto 10].
    apply String.eqb_eq in H; subst. right; left. eauto.
  - intros [[[H R]%andb_true_iff I]%andb_true_iff|[H R]%andb_true_iff]%orb_true_iff;
      apply String.eqb_eq in H; subst.
    + apply bool_decide_eq_true in I. destruct I as [v Hv]. left. eauto 10.
    + right; right; left. eauto.
Qed.

Lemma parse_valid line instr : parse line = Ret instr -> valid_instr instr = true.
Proof.
  unfold parse. destruct (PyStr.split _) as [|t targs]; [done|].
  destruct (String.eqb (PyStr.upper t) "SET") eqn:E1.
  { apply String.eqb_eq in E1. rewrite E1.
    destruct targs as [|a0 [|a1 [|a2 targs]]]; try done.
    destruct (is_register a0) eqn:R; [|done]. simpl.
    destruct (PyStr.int a1) eqn:I; [|done]. intros [= <-].
    unfold valid_instr. simpl. rewrite R. simpl.
    apply orb_true_iff. left. apply bool_decide_eq_true. by eexists. }
  destruct (String.eqb (PyStr.upper t) "INC") eqn:E2.
  { apply String.eqb_eq in E2. rewrite E2.
    destruct targs as [|a0 [|a1 targs]]; try done.
    destruct (is_register a0) eqn:R; [|done]. intros [= <-].
    unfold valid_instr. simpl. by rewrite R. }
  destruct (String.eqb (PyStr.upper t) "DECJZ") eqn:E3.
  { apply String.eqb_eq in E3. rewrite E3.
    destruct targs as [|a0 [|a1 [|a2 targs]]]; try done.
    destruct (is_register a0) eqn:R; [|done]. intros [= <-].
    unfold valid_instr. simpl. by rewrite R. }
  destruct (String.eqb (PyStr.upper t) "GOTO") eqn:E4.
  { apply String.eqb_eq in E4. rewrite E4.
    destruct targs as [|a0 [|a1 targs]]; try done. by intros [= <-]. }
  destruct (String.eqb (PyStr.upper t) "PRINT") eqn:E5.
  { apply String.eqb_eq in E5. rewrite E5.
    destruct targs as [|a0 targs]; try done. by intros [= <-]. }
  destruct (String.eqb (PyStr.upper t) "HALT") eqn:E6; [|done].
  apply String.eqb_eq in E6. rewrite E6.
  destruct targs as [|a0 targs]; try done. by intros [= <-].
Qed.

End Instructions.

(** ** What a step and a run leave alone *)

Section Frames.

Implicit Types (vm : MicrowaveVM) (instr : Instr).

Ltac by_cases :=
  repeat match goal with
         | |- context [String.eqb ?a ?b] => destruct (String.eqb a b)
         | |- context [?l !! ?i] =>
             match type of l with list string => destruct (l !! i) end
         | |- context [PyStr.int ?s] => destruct (PyStr.int s)
         | |- context [Z.eqb ?a ?b] => destruct (Z.eqb a b)
         | |- context [labels ?v !! ?t] => destruct (labels v !! t)
         end.

Lemma exec_frame instr vm r vm' out :
  exec instr vm = (r, vm', out) ->
  program vm' = program vm /\ labels vm' = labels vm /\
  (r <> Raise step_limit) /\ (halted vm = false -> r <> Ret tt -> halted vm' = false).
Proof.
  unfold exec, jump, advance.
  unfold bind, index, to_int, get, ret, raise, modify, print.
  by_cases; simpl; by_cases; simpl; intros H; inversion H; subst; simpl;
    split_and!; try done.
Qed.

Lemma step_when_halted vm : halted vm = true -> step vm = (Ret tt, vm, []).
Proof. intros Hh. unfold step, bind, get. simpl. by rewrite Hh. Qed.

(** The ways a step can go, for any machine. *)
Lemma step_shape vm :
  (halted vm = true /\ step vm = (Ret tt, vm, [])) \/
  (halted vm = false /\ in_bounds vm = false /\ step vm = (Ret tt, set_halted true vm, [])) \/
  (halted vm = false /\ in_bounds vm = true /\
   exists instr, program vm !! Z.to_nat (pc vm) = Some instr /\
                 step vm = exec instr (set_steps (steps vm + 1) vm)).
Proof.
  destruct (halted vm) eqn:Hh; [left; split; [done | by apply step_when_halted]|].
  destruct (in_bounds vm) eqn:Hb.
  - right; right. apply in_bounds_true in Hb as Hb'. destruct Hb' as [Hpc Hlen].
    destruct (program vm !! Z.to_nat (pc vm)) as [instr|] eqn:Hi.
    + split_and!; try done. exists instr. split; [done | by apply step_fetch].
    + apply lookup_ge_None in Hi. lia.
  - right; left. split_and!; try done. by apply step_off_the_end.
Qed.

Lemma step_frame vm r vm' out :
  step vm = (r, vm', out) ->
  program vm' = program vm /\ labels vm' = labels vm /\
  steps vm <= steps vm' <= steps vm + 1 /\
  r <> Raise step_limit /\
  (r <> Ret tt -> halted vm' = false).
Proof.
  intros H.
  destruct (step_shape vm) as [(Hh & Hs)|[(Hh & Hb & Hs)|(Hh & Hb & instr & Hi & Hs)]];
    rewrite Hs in H.
  - injection H as <- <- <-. split_and!; try done; lia.
  - injection H as <- <- <-. split_and!; try done; simpl; lia.
  - pose proof (exec_steps _ _ _ _ _ H) as Hst. simpl in Hst.
    apply exec_frame in H. simpl in H. destruct H as (Hp & Hl & Hr & Hhalt).
    split_and!; try done; try lia. intros Hne. by apply Hhalt.
Qed.

(** A property that every step keeps is kept by the whole loop. *)
Lemma run_preserves (P : MicrowaveVM -> Prop) :
  (forall vm r vm' out, P vm -> step vm = (r, vm', out) -> P vm') ->
  forall fuel max_steps vm r vm' out,
    P vm -> run fuel max_steps vm = Some (r, vm', out) -> P vm'.
Proof.
  intros Hstep. induction fuel as [|fuel IH]; intros ms vm r vm' out HP H.
  - simpl in H. destruct (halted vm); [by injection H as <- <- <-|].
    destruct (over_budget ms vm); [by injection H as <- <- <-|done].
  - cbn [run] in H. destruct (halted vm); [by injection H as <- <- <-|].
    destruct (over_budget ms vm); [by injection H as <- <- <-|].
    destruct (step vm) as [[[[]|e] vm1] out1] eqn:Hs.
    + destruct (run fuel ms vm1) as [[[r2 vm2] out2]|] eqn:Hr; [|done].
      injection H as <- <- <-. eapply IH; [|exact Hr]. eapply Hstep; [exact HP | exact Hs].
    + injection H as <- <- <-. eapply Hstep; [exact HP | exact Hs].
Qed.

Lemma run_keeps_steps fuel max_steps vm r vm' out :
  run fuel max_steps vm = Some (r, vm', out) -> steps vm <= steps vm'.
Proof.
  intros H.
  apply (run_preserves (fun m => steps vm <= steps m)) in H; [done | | lia].
  intros m r1 m1 out1 Hs Hstep.
  apply step_frame in Hstep. destruct Hstep as (_ & _ & Hs1 & _). lia.
Qed.


End Frames.

(** X1.  Neither a step nor a whole run changes the loaded program or
    the label table, and the step counter never goes down. *)
Theorem run_keeps_program
    (fuel : nat) (max_steps : option Z) (vm : MicrowaveVM)
    (r : res unit) (vm' : MicrowaveVM) (out : list string) :
  run fuel max_steps vm = Some (r, vm', out) ->
  program vm' = program vm /\ labels vm' = labels vm /\ steps vm <= steps vm'.
Proof.
  intros H.
  apply (run_preserves
           (fun m => program m = program vm /\ labels m = labels vm /\ steps vm <= steps m))
    in H; [done | | split_and!; [done | done | lia]].
  intros m r1 m1 out1 (Hp & Hl & Hs) Hstep.
  apply step_frame in Hstep. destruct Hstep as (Hp1 & Hl1 & Hs1 & _).
  split_and!; [congruence | congruence | lia].
Qed.

Lemma run_keeps_program_witness :
  let vm := set_registers (<["POWER" := 2]> (registers init))
              (set_labels add_labels (vm_of add_instrs)) in
  exists r vm' out,
    run 20 None vm = Some (r, vm', out) /\
    program vm' = program vm /\ labels vm' = labels vm /\ steps vm <= steps vm'.
Proof.
  intros vm.
  destruct (run 20 None vm) as [[[r vm'] out]|] eqn:H; [|vm_compute in H; discriminate].
  exists r, vm', out. split; [reflexivity|].
  exact (run_keeps_program 20 None vm r vm' out H).
Defined.

(** ** How a run ends *)

Section RunEnds.

Implicit Types (vm : MicrowaveVM).

Lemma run_end fuel : forall max_steps vm r vm' out,
  run fuel max_steps vm = Some (r, vm', out) ->
  (r = Ret tt /\ halted vm' = true) \/
  (r = Raise step_limit /\ halted vm' = false /\ over_budget max_steps vm' = true) \/
  (r <> Ret tt /\ r <> Raise step_limit /\ halted vm' = false /\
   exists vm1 out1, halted vm1 = false /\ step vm1 = (r, vm', out1)).
Proof.
  induction fuel as [|fuel IH]; intros ms vm r vm' out H.
  - simpl in H. destruct (halted vm) eqn:Hh; [injection H as <- <- <-; by left|].
    destruct (over_budget ms vm) eqn:Ho; [|done].
    injection H as <- <- <-. right; left. done.
  - cbn [run] in H. destruct (halted vm) eqn:Hh; [injection H as <- <- <-; by left|].
    destruct (over_budget ms vm) eqn:Ho; [injection H as <- <- <-; right; left; done|].
    destruct (step vm) as [[[[]|e] vm1] out1] eqn:Hs.
    + destruct (run fuel ms vm1) as [[[r2 vm2] out2]|] eqn:Hr; [|done].
      injection H as <- <- <-. eauto.
    + injection H as <- <- <-. right; right.
      pose proof (step_frame _ _ _ _ Hs) as (_ & _ & _ & Hne & Hhalt).
      split_and!; [done | done | by apply Hhalt | by exists vm, out1].
Qed.

Lemma run_within_budget fuel : forall B vm r vm' out,
  run fuel (Some B) vm = Some (r, vm', out) ->
  steps vm <= B -> steps vm' <= B.
Proof.
  induction fuel as [|fuel IH]; intros B vm r vm' out H Hle.
  - simpl in H. destruct (halted vm); [by injection H as <- <- <-|].
    destruct (B <=? steps vm); [by injection H as <- <- <-|done].
  - cbn [run] in H. destruct (halted vm); [by injection H as <- <- <-|].
    unfold over_budget in H.
    destruct (Z.leb_spec B (steps vm)); [by injection H as <- <- <-|].
    destruct (step vm) as [[[[]|e] vm1] out1] eqn:Hs;
      pose proof (step_frame _ _ _ _ Hs) as (_ & _ & Hst & _).
    + destruct (run fuel (Some B) vm1) as [[[r2 vm2] out2]|] eqn:Hr; [|done].
      injection H as <- <- <-. eapply IH; [exact Hr | lia].
    + injection H as <- <- <-. lia.
Qed.

End RunEnds.

(** X2.  When [run] returns normally the machine is halted, so a second
    [run] returns at once, prints nothing and changes nothing.  When
    [run] raises the step-limit error the machine is still running and
    its step counter has reached the budget. *)
Theorem run_ends_halted_or_over_budget
    (fuel : nat) (max_steps : option Z) (vm : MicrowaveVM)
    (r : res unit) (vm' : MicrowaveVM) (out : list string) :
  run fuel max_steps vm = Some (r, vm', out) ->
  (r = Ret tt ->
     halted vm' = true /\
     forall fuel' max_steps', run fuel' max_steps' vm' = Some (Ret tt, vm', [])) /\
  (r = Raise step_limit ->
     halted vm' = false /\ exists B, max_steps = Some B /\ B <= steps vm').
Proof.
  intros H. apply run_end in H.
  destruct H as [(-> & Hh)|[(-> & Hh & Ho)|(Hr1 & Hr2 & _)]].
  - split; [|done]. intros _. split; [done|]. intros f m. by apply run_halted.
  - split; [done|]. intros _. split; [done|].
    destruct max_steps as [B|]; [|done]. exists B. split; [done|]. by apply Z.leb_le.
  - split; intros ->; done.
Qed.

Lemma run_ends_halted_or_over_budget_witness :
  exists r vm' out,
    run 30 (Some 4) (snd (fst (load_program spin init))) = Some (r, vm', out) /\
    (r = Ret tt ->
       halted vm' = true /\
       forall fuel' max_steps', run fuel' max_steps' vm' = Some (Ret tt, vm', [])) /\
    (r = Raise step_limit ->
       halted vm' = false /\ exists B, Some 4 = Some B /\ B <= steps vm').
Proof.
  destruct (run 30 (Some 4) (snd (fst (load_program spin init))))
    as [[[r vm'] out]|] eqn:H; [|vm_compute in H; discriminate].
  exists r, vm', out. split; [reflexivity|].
  exact (run_ends_halted_or_over_budget 30 (Some 4) _ r vm' out H).
Defined.

(** X3.  With a budget [B] that the step counter has not passed when
    [run] is called, the counter never passes [B], however the run
    ends: at most [B - steps] instructions are executed. *)
Theorem run_never_exceeds_budget
    (fuel : nat) (B : Z) (vm : MicrowaveVM)
    (r : res unit) (vm' : MicrowaveVM) (out : list string) :
  steps vm <= B ->
  run fuel (Some B) vm = Some (r, vm', out) ->
  steps vm <= steps vm' <= B.
Proof.
  intros Hle H. split.
  - by apply run_keeps_steps in H.
  - by apply (run_within_budget fuel B vm r vm' out).
Qed.

Lemma run_never_exceeds_budget_witness :
  exists r vm' out,
    run 30 (Some 4) (snd (fst (load_program spin init))) = Some (r, vm', out) /\
    steps (snd (fst (load_program spin init))) <= steps vm' <= 4.
Proof.
  destruct (run 30 (Some 4) (snd (fst (load_program spin init))))
    as [[[r vm'] out]|] eqn:H; [|vm_compute in H; discriminate].
  exists r, vm', out. split; [reflexivity|].
  apply (run_never_exceeds_budget 30 4 _ r vm' out); [vm_compute; discriminate | exact H].
Defined.

(** ** Machines that hold a validated program *)

Section Validated.

Implicit Types (vm : MicrowaveVM) (instr : Instr).

Lemma forallb_lookup {A} (f : A -> bool) (l : list A) (i : nat) (x : A) :
  forallb f l = true -> l !! i = Some x -> f x = true.
Proof.
  intros Hall Hi. rewrite forallb_forall in Hall. apply Hall.
  apply list_elem_of_In. by eapply list_elem_of_lookup_2.
Qed.

(** The ways a step can go on a validated program. *)
Lemma step_validated vm :
  forallb valid_instr (program vm) = true ->
  let vm1 := set_steps (steps vm + 1) vm in
  (halted vm = true /\ step vm = (Ret tt, vm, [])) \/
  (halted vm = false /\ in_bounds vm = false /\
   step vm = (Ret tt, set_halted true vm, [])) \/
  (halted vm = false /\ in_bounds vm = true /\
   ((exists r v, (r = "TIME" \/ r = "POWER") /\
       step vm = (Ret tt,
                  set_pc (pc vm + 1) (set_registers (<[r := v]> (registers vm)) vm1),
                  [])) \/
    (exists L i, labels vm !! L = Some i /\ step vm = (Ret tt, set_pc i vm1, [])) \/
    (exists L, labels vm !! L = None /\
       step vm = (Raise (ValueError ("Unknown label: " ++ L)), vm1, [])) \/
    step vm = (Ret tt, set_pc (pc vm + 1) vm1,
               ["TIME: " ++ PyStr.str (reg_get vm "TIME")]) \/
    step vm = (Ret tt, set_halted true vm1, ["BEEEEEEP!"]))).
Proof.
  intros Hval vm1.
  destruct (step_shape vm) as [(Hh & Hs)|[(Hh & Hb & Hs)|(Hh & Hb & instr & Hi & Hs)]].
  - by left.
  - right; left. done.
  - right; right. split_and!; try done.
    apply in_bounds_true in Hb as [Hpc _].
    pose proof (forallb_lookup _ _ _ _ Hval Hi) as Hv.
    destruct (valid_instr_cases _ Hv)
      as [(a0 & lit & v & -> & Hr & Hint)|[(a0 & -> & Hr)|[(a0 & L & -> & Hr)|
          [(L & ->)|[-> | ->]]]]].
    + left. exists (regname a0), v. split; [by apply is_register_name|].
      by apply (step_set vm a0 lit v).
    + left. exists (regname a0), (reg_get vm (regname a0) + 1).
      split; [by apply is_register_name|]. by apply step_inc.
    + rewrite (decjz_like vm a0 L [] Hh Hpc Hi). fold vm1.
      destruct (reg_get vm (regname a0) =? 0).
      * destruct (labels vm !! L) as [i|] eqn:HL.
        -- right; left. by exists L, i.
        -- right; right; left. by exists L.
      * left. exists (regname a0), (reg_get vm (regname a0) - 1).
        split; [by apply is_register_name | done].
    + rewrite (step_goto vm L Hh Hpc Hi). fold vm1.
      destruct (labels vm !! L) as [i|] eqn:HL.
      * right; left. by exists L, i.
      * right; right; left. by exists L.
    + right; right; right; left. by apply step_print.
    + right; right; right; right. by apply step_halt.
Qed.

Lemma second_pass_valid lines : forall vm vm' out,
  second_pass lines vm = (Ret tt, vm', out) ->
  forallb valid_instr (program vm) = true ->
  forallb valid_instr (program vm') = true.
Proof.
  induction lines as [|raw lines IH]; intros vm vm' out H Hv.
  - by injection H as <- _.
  - destruct (is_code_line (normalize raw)) eqn:Hc.
    + rewrite second_pass_code in H by done.
      destruct (parse (normalize raw)) as [instr|e] eqn:Hp; [|discriminate].
      eapply IH; [exact H|]. simpl. rewrite forallb_app, Hv. simpl.
      by rewrite (parse_valid _ _ Hp).
    + rewrite second_pass_skip in H by done. eauto.
Qed.

Lemma load_program_ok_inv source vm vm' out :
  load_program source vm = (Ret tt, vm', out) ->
  exists vm1,
    first_pass (PyStr.splitlines source) 0 (cleared vm) = (Ret tt, vm1, []) /\
    second_pass (PyStr.splitlines source) vm1 = (Ret tt, vm', out) /\
    vm1 = set_labels (labels vm1) (cleared vm) /\
    vm' = set_program (program vm') vm1 /\ out = [].
Proof.
  rewrite load_program_lines. intros H. apply load_lines_inv in H.
  destruct H as [(e & [=] & _)|(vm1 & H1 & H2)].
  exists vm1. pose proof (first_pass_frame _ _ _ _ _ _ H1) as [Hf1 _].
  pose proof (second_pass_frame _ _ _ _ _ H2) as [Hf2 Ho]. done.
Qed.

End Validated.

(** X4.  Every instruction of a program that [load_program] accepted
    has passed the validation: its opcode is one of the six, in upper
    case, it has the number of arguments the opcode asks for, its
    register argument names TIME or POWER, and the literal of a SET is
    one that [int] accepts. *)
Theorem loaded_program_is_valid
    (source : string) (vm vm' : MicrowaveVM) (out : list string) :
  load_program source vm = (Ret tt, vm', out) ->
  forallb valid_instr (program vm') = true.
Proof.
  intros H. apply load_program_ok_inv in H.
  destruct H as (vm1 & _ & H2 & Hf1 & _).
  eapply second_pass_valid; [exact H2|]. by rewrite Hf1.
Qed.

Lemma loaded_program_is_valid_witness :
  exists vm' out,
    load_program ADD_PROGRAM init = (Ret tt, vm', out) /\
    forallb valid_instr (program vm') = true.
Proof.
  destruct (load_program ADD_PROGRAM init) as [[r vm'] out] eqn:H.
  assert (Hr : r = Ret tt) by (vm_compute in H; by injection H as <- _ _).
  subst r. exists vm', out. split; [reflexivity|].
  exact (loaded_program_is_valid ADD_PROGRAM init vm' out H).
Defined.



(** X6.  Running a validated program writes the registers TIME and
    POWER only: any other entry of the register dictionary, present or
    not, is after the run what it was before, however the run ends. *)
Theorem run_writes_time_and_power_only
    (fuel : nat) (max_steps : option Z) (vm : MicrowaveVM)
    (r : res unit) (vm' : MicrowaveVM) (out : list string) (name : string) :
  forallb valid_instr (program vm) = true ->
  run fuel max_steps vm = Some (r, vm', out) ->
  name <> "TIME" -> name <> "POWER" ->
  registers vm' !! name = registers vm !! name.
Proof.
  intros Hv H Ht Hp.
  apply (run_preserves
           (fun m => program m = program vm /\ registers m !! name = registers vm !! name))
    in H; [by destruct H | | done].
  intros m r1 m1 out1 (Hpm & Hreg) Hstep.
  pose proof (step_frame _ _ _ _ Hstep) as (Hp1 & _).
  split; [congruence|]. rewrite <- Hreg.
  assert (Hvm : forallb valid_instr (program m) = true) by (by rewrite Hpm).
  destruct (step_validated m Hvm)
    as [(_ & Hx)|[(_ & _ & Hx)|(_ & _ & [Hx|[Hx|[Hx|[Hx|Hx]]]])]].
  - rewrite Hx in Hstep. by injection Hstep as _ <- _.
  - rewrite Hx in Hstep. by injection Hstep as _ <- _.
  - destruct Hx as (reg & v & Hreg' & Hx). rewrite Hx in Hstep.
    injection Hstep as _ <- _. simpl. apply lookup_insert_ne.
    destruct Hreg' as [-> | ->]; congruence.
  - destruct Hx as (L & i & _ & Hx). rewrite Hx in Hstep. by injection Hstep as _ <- _.
  - destruct Hx as (L & _ & Hx). rewrite Hx in Hstep. by injection Hstep as _ <- _.
  - rewrite Hx in Hstep. by injection Hstep as _ <- _.
  - rewrite Hx in Hstep. by injection Hstep as _ <- _.
Qed.

Lemma run_writes_time_and_power_only_witness :
  let vm := set_registers (<["AUX" := 7]> (<["POWER" := 2]> (registers init)))
              (set_labels add_labels (vm_of add_instrs)) in
  exists r vm' out,
    run 20 None vm = Some (r, vm', out) /\
    registers vm' !! "AUX" = registers vm !! "AUX".
Proof.
  intros vm.
  destruct (run 20 None vm) as [[[r vm'] out]|] eqn:H; [|vm_compute in H; discriminate].
  exists r, vm', out. split; [reflexivity|].
  apply (run_writes_time_and_power_only 20 None vm r vm' out "AUX");
    [reflexivity | exact H | discriminate | discriminate].
Defined.

(** ** The label table and the program after a load *)

Section Tables.

Implicit Types (vm : MicrowaveVM) (lines : list string).

(** Every entry of the table after the first pass was there before or
    comes from a label line, with the instruction count above it. *)
Lemma first_pass_labels_sound lines : forall idx vm r vm' out L i,
  first_pass lines idx vm = (r, vm', out) ->
  labels vm' !! L = Some i ->
  labels vm !! L = Some i \/
  exists above raw below,
    lines = (above ++ raw :: below)%list /\
    is_label_line (normalize raw) = true /\
    label_of (normalize raw) = L /\ i = idx + count_code above.
Proof.
  induction lines as [|x lines IH]; intros idx vm r vm' out L i H HL.
  - injection H as _ <- _. by left.
  - destruct (line_kinds (normalize x)) as [(He&_&Hc)|[(_&Hl&Hc&_)|(_&_&Hc&_)]].
    + rewrite first_pass_blank in H by done.
      destruct (IH _ _ _ _ _ _ _ H HL) as [?|(above & raw & below & -> & ? & ? & ->)];
        [by left|].
      right. exists (x :: above), raw, below. split_and!; try done.
      cbn [count_code]. rewrite Hc. lia.
    + rewrite first_pass_label in H by done. cbv zeta in H.
      destruct (PyStr.is_empty _); [injection H as _ <- _; by left|].
      case_decide; [injection H as _ <- _; by left|].
      destruct (IH _ _ _ _ _ _ _ H HL) as [Hin|(above & raw & below & -> & ? & ? & ->)].
      * simpl in Hin. apply lookup_insert_Some in Hin.
        destruct Hin as [[<- <-]|[_ Hin]]; [|by left].
        right. exists [], x, lines. split_and!; try done. simpl. lia.
      * right. exists (x :: above), raw, below. split_and!; try done.
        cbn [count_code]. rewrite Hc. lia.
    + rewrite first_pass_code in H by done.
      destruct (IH _ _ _ _ _ _ _ H HL) as [?|(above & raw & below & -> & ? & ? & ->)];
        [by left|].
      right. exists (x :: above), raw, below. split_and!; try done.
      cbn [count_code]. rewrite Hc. lia.
Qed.

Lemma load_program_shape source vm vm' out :
  load_program source vm = (Ret tt, vm', out) ->
  Z.of_nat (length (program vm')) = count_code (PyStr.splitlines source) /\
  exists vm1,
    first_pass (PyStr.splitlines source) 0 (cleared vm) = (Ret tt, vm1, []) /\
    second_pass (PyStr.splitlines source) vm1 = (Ret tt, vm', out) /\
    labels vm' = labels vm1 /\ program vm1 = [].
Proof.
  intros H. apply load_program_ok_inv in H.
  destruct H as (vm1 & H1 & H2 & Hf1 & Hf2 & ->).
  assert (Hp1 : program vm1 = []) by (by rewrite Hf1).
  split.
  - rewrite (second_pass_length _ _ _ _ H2), Hp1. simpl. lia.
  - exists vm1. split_and!; try done. by rewrite Hf2.
Qed.

End Tables.

(** X7.  After a load that went through, the label table holds exactly
    the labels the text defines: a name is mapped to an index if and
    only if some line of the text is a label definition of that name
    with that many instruction lines above it. *)
Theorem label_table_exact
    (source : string) (vm vm' : MicrowaveVM) (out : list string) (L : string) (i : Z) :
  load_program source vm = (Ret tt, vm', out) ->
  labels vm' !! L = Some i <->
  exists above raw below,
    PyStr.splitlines source = (above ++ raw :: below)%list /\
    is_label_line (normalize raw) = true /\
    label_of (normalize raw) = L /\ i = count_code above.
Proof.
  intros H. apply load_program_shape in H.
  destruct H as (_ & vm1 & H1 & _ & Hl & _). rewrite Hl. split.
  - intros HL.
    destruct (first_pass_labels_sound _ _ _ _ _ _ _ _ H1 HL)
      as [Hin|(above & raw & below & Hs & Hraw & Hname & ->)]; [done|].
    exists above, raw, below. split_and!; done.
  - intros (above & raw & below & Hs & Hraw & <- & ->).
    rewrite Hs in H1. rewrite (first_pass_label_index _ _ _ _ _ _ _ Hraw H1).
    f_equal; lia.
Qed.

Lemma label_table_exact_witness :
  exists vm' out,
    load_program ADD_PROGRAM init = (Ret tt, vm', out) /\
    (labels vm' !! "end" = Some 3 <->
     exists above raw below,
       PyStr.splitlines ADD_PROGRAM = (above ++ raw :: below)%list /\
       is_label_line (normalize raw) = true /\
       label_of (normalize raw) = "end" /\ 3 = count_code above).
Proof.
  destruct (load_program ADD_PROGRAM init) as [[r vm'] out] eqn:H.
  assert (Hr : r = Ret tt) by (vm_compute in H; by injection H as <- _ _).
  subst r. exists vm', out. split; [reflexivity|].
  exact (label_table_exact ADD_PROGRAM init vm' out "end" 3 H).
Defined.

(** X8.  After a load that went through, the program has one
    instruction per instruction line, in the order of the text: its
    length is the number of instruction lines, and the instruction that
    the validation built from an instruction line sits at the index
    equal to the number of instruction lines above that line. *)
Theorem program_follows_text
    (source : string) (vm vm' : MicrowaveVM) (out : list string)
    (above : list string) (raw : string) (below : list string) :
  load_program source vm = (Ret tt, vm', out) ->
  PyStr.splitlines source = (above ++ raw :: below)%list ->
  is_code_line (normalize raw) = true ->
  Z.of_nat (length (program vm')) = count_code (PyStr.splitlines source) /\
  exists instr,
    parse (normalize raw) = Ret instr /\
    program vm' !! Z.to_nat (count_code above) = Some instr.
Proof.
  intros H Hs Hc. apply load_program_shape in H.
  destruct H as (Hlen & vm1 & _ & H2 & _ & Hp1). split; [done|].
  pose proof (second_pass_parses _ _ _ _ H2) as Hall. rewrite Hs in Hall, H2.
  rewrite forallb_app in Hall. apply andb_true_iff in Hall. destruct Hall as [_ Hall].
  cbn [forallb] in Hall. apply andb_true_iff in Hall. destruct Hall as [Hraw _].
  rewrite Hc in Hraw. simpl in Hraw.
  destruct (parse (normalize raw)) as [instr|e] eqn:Hp; [|done].
  exists instr. split; [done|].
  pose proof (second_pass_slot _ _ _ _ _ _ _ Hc Hp H2) as Hslot.
  by rewrite Hp1 in Hslot.
Qed.

Lemma program_follows_text_witness :
  exists vm' out,
    load_program forward_source init = (Ret tt, vm', out) /\
    Z.of_nat (length (program vm')) = count_code (PyStr.splitlines forward_source) /\
    exists instr,
      parse (normalize "  INC TIME") = Ret instr /\
      program vm' !! Z.to_nat (count_code ["  GOTO end"]) = Some instr.
Proof.
  destruct (load_program forward_source init) as [[r vm'] out] eqn:H.
  assert (Hr : r = Ret tt) by (vm_compute in H; by injection H as <- _ _).
  subst r. exists vm', out. split; [reflexivity|].
  exact (program_follows_text forward_source init vm' out
           ["  GOTO end"] "  INC TIME" ["end:"; "  HALT"] H eq_refl eq_refl).
Defined.

Section Range.

Implicit Types (vm : MicrowaveVM) (lines : list string).

Lemma count_code_prefix above raw below :
  0 <= count_code above <= count_code (above ++ raw :: below).
Proof.
  pose proof (count_code_nonneg above). pose proof (count_code_nonneg (raw :: below)).
  rewrite count_code_app. lia.
Qed.

Lemma loaded_labels_in_range source vm vm' out L i :
  load_program source vm = (Ret tt, vm', out) ->
  labels vm' !! L = Some i ->
  0 <= i <= Z.of_nat (length (program vm')).
Proof.
  intros H HL. apply load_program_shape in H.
  destruct H as (Hlen & vm1 & H1 & _ & Hl & _). rewrite Hl in HL.
  destruct (first_pass_labels_sound _ _ _ _ _ _ _ _ H1 HL)
    as [Hin|(above & raw & below & Hs & _ & _ & ->)]; [done|].
  rewrite Hlen, Hs. pose proof (count_code_prefix above raw below). lia.
Qed.

(** With every label index in range, a step never takes the program
    counter out of [0, len(program)]. *)
Lemma step_keeps_pc_in_range vm r vm' out :
  forallb valid_instr (program vm) = true ->
  (forall L i, labels vm !! L = Some i -> 0 <= i <= Z.of_nat (length (program vm))) ->
  0 <= pc vm <= Z.of_nat (length (program vm)) ->
  step vm = (r, vm', out) ->
  0 <= pc vm' <= Z.of_nat (length (program vm')).
Proof.
  intros Hv Hlab Hpc Hs.
  destruct (step_validated vm Hv)
    as [(_ & Hx)|[(_ & _ & Hx)|(_ & Hb & [Hx|[Hx|[Hx|[Hx|Hx]]]])]];
    try (apply in_bounds_true in Hb).
  - rewrite Hx in Hs. by injection Hs as _ <- _.
  - rewrite Hx in Hs. by injection Hs as _ <- _.
  - destruct Hx as (reg & v & _ & Hx). rewrite Hx in Hs.
    injection Hs as _ <- _. simpl. lia.
  - destruct Hx as (L & i & HL & Hx). rewrite Hx in Hs.
    injection Hs as _ <- _. simpl. by apply (Hlab L).
  - destruct Hx as (L & _ & Hx). rewrite Hx in Hs. by injection Hs as _ <- _.
  - rewrite Hx in Hs. injection Hs as _ <- _. simpl. lia.
  - rewrite Hx in Hs. by injection Hs as _ <- _.
Qed.

End Range.

(** X9.  After a load that went through, every index in the label
    table lies in [0, len(program)], and a run that starts with the
    program counter in that range, on that program and label table,
    keeps it there: the counter is never negative and never more than
    one past the last instruction. *)
Theorem program_counter_stays_in_range
    (source : string) (vm0 vm : MicrowaveVM) (out0 : list string)
    (fuel : nat) (max_steps : option Z) (m : MicrowaveVM)
    (r : res unit) (m' : MicrowaveVM) (out : list string) :
  load_program source vm0 = (Ret tt, vm, out0) ->
  program m = program vm -> labels m = labels vm ->
  0 <= pc m <= Z.of_nat (length (program m)) ->
  run fuel max_steps m = Some (r, m', out) ->
  (forall L i, labels vm !! L = Some i -> 0 <= i <= Z.of_nat (length (program vm))) /\
  0 <= pc m' <= Z.of_nat (length (program m')).
Proof.
  intros Hload Hp Hl Hpc Hrun.
  assert (Hlab : forall L i, labels vm !! L = Some i ->
                             0 <= i <= Z.of_nat (length (program vm))).
  { intros L i. by apply (loaded_labels_in_range source vm0 vm out0). }
  split; [done|].
  assert (Hv : forallb valid_instr (program vm) = true).
  { apply load_program_ok_inv in Hload. destruct Hload as (vm1 & _ & H2 & Hf1 & _).
    eapply second_pass_valid; [exact H2|]. by rewrite Hf1. }
  enough (Hinv : program m' = program vm /\ labels m' = labels vm /\
                 0 <= pc m' <= Z.of_nat (length (program m')))
    by (by destruct Hinv as (_ & _ & ?)).
  refine (run_preserves
            (fun x => program x = program vm /\ labels x = labels vm /\
                      0 <= pc x <= Z.of_nat (length (program x)))
            _ fuel max_steps m r m' out _ Hrun); [|done].
  intros x r1 x1 out1 (Hpx & Hlx & Hpcx) Hstep.
  pose proof (step_frame _ _ _ _ Hstep) as (Hp1 & Hl1 & _).
  split; [congruence|]. split; [congruence|].
  apply (step_keeps_pc_in_range x r1 x1 out1); try done.
  - by rewrite Hpx.
  - intros L i. rewrite Hlx, Hpx. apply Hlab.
Qed.

Lemma program_counter_stays_in_range_witness :
  exists vm out0 r m' out,
    load_program ADD_PROGRAM init = (Ret tt, vm, out0) /\
    run 20 None vm = Some (r, m', out) /\
    (forall L i, labels vm !! L = Some i -> 0 <= i <= Z.of_nat (length (program vm))) /\
    0 <= pc m' <= Z.of_nat (length (program m')).
Proof.
  destruct (load_program ADD_PROGRAM init) as [[r0 vm] out0] eqn:H.
  assert (Hr : r0 = Ret tt) by (vm_compute in H; by injection H as <- _ _).
  subst r0.
  assert (Hpc : 0 <= pc vm <= Z.of_nat (length (program vm))).
  { vm_compute in H. injection H as <- _. vm_compute. split; discriminate. }
  destruct (run 20 None vm) as [[[r m'] out]|] eqn:Hrun.
  - exists vm, out0, r, m', out. split; [reflexivity|]. split; [exact Hrun|].
    exact (program_counter_stays_in_range ADD_PROGRAM init vm out0 20 None vm r m' out
             H eq_refl eq_refl Hpc Hrun).
  - exfalso. vm_compute in H. injection H as <- _. vm_compute in Hrun. discriminate.
Defined.

(** X10.  Whether it succeeds or fails, [load_program] prints nothing,
    leaves the registers as they were, and rewinds the program counter,
    the halted flag and the step counter; and its result depends on the
    machine it is called on through the registers only, so that a load
    fully supersedes whatever program, label table and run state were
    there. *)
Theorem load_program_rewinds
    (source : string) (vm : MicrowaveVM)
    (r : res unit) (vm' : MicrowaveVM) (out : list string) :
  load_program source vm = (r, vm', out) ->
  out = [] /\ registers vm' = registers vm /\
  pc vm' = 0 /\ halted vm' = false /\ steps vm' = 0 /\
  (forall old, registers old = registers vm -> load_program source old = (r, vm', out)).
Proof.
  intros H.
  assert (Hold : forall old, registers old = registers vm ->
                   load_program source old = (r, vm', out)).
  { intros old Hr. rewrite load_program_lines.
    replace (cleared old) with (cleared vm); [by rewrite <- load_program_lines|].
    unfold cleared, set_steps, set_halted, set_pc, set_labels, set_program. simpl.
    by rewrite Hr. }
  rewrite load_program_lines in H. apply load_lines_inv in H.
  destruct H as [(e & -> & H1)|(vm1 & H1 & H2)].
  - pose proof (first_pass_frame _ _ _ _ _ _ H1) as [Hf ->].
    assert (Hfr : registers vm' = registers vm /\ pc vm' = 0 /\ halted vm' = false /\
                  steps vm' = 0) by (by rewrite Hf).
    destruct Hfr as (? & ? & ? & ?). done.
  - pose proof (first_pass_frame _ _ _ _ _ _ H1) as [Hf1 _].
    pose proof (second_pass_frame _ _ _ _ _ H2) as [Hf2 ->].
    assert (Hfr : registers vm' = registers vm /\ pc vm' = 0 /\ halted vm' = false /\
                  steps vm' = 0) by (rewrite Hf2; simpl; by rewrite Hf1).
    destruct Hfr as (? & ? & ? & ?). done.
Qed.

Lemma load_program_rewinds_witness :
  let used := set_registers (<["TIME" := 5]> (registers init))
                (set_pc 3 (set_halted true (set_steps 8
                   (set_labels add_labels (vm_of add_instrs))))) in
  exists r vm' out,
    load_program spin used = (r, vm', out) /\
    out = [] /\ registers vm' = registers used /\
    pc vm' = 0 /\ halted vm' = false /\ steps vm' = 0 /\
    (forall old, registers old = registers used ->
       load_program spin old = (r, vm', out)).
Proof.
  intros used.
  destruct (load_program spin used) as [[r vm'] out] eqn:H.
  exists r, vm', out. split; [reflexivity|].
  exact (load_program_rewinds spin used r vm' out H).
Defined.

(** ** Where a load stops *)

Section Stops.

Implicit Types (vm : MicrowaveVM) (lines : list string).

Lemma first_pass_app l1 : forall l2 idx vm vm1 out1,
  first_pass l1 idx vm = (Ret tt, vm1, out1) ->
  first_pass (l1 ++ l2) idx vm = first_pass l2 (idx + count_code l1) vm1.
Proof.
  induction l1 as [|x l1 IH]; intros l2 idx vm vm1 out1 H.
  - injection H as <- _. simpl. f_equal; lia.
  - rewrite <- app_comm_cons. cbn [count_code].
    destruct (line_kinds (normalize x)) as [(He&_&Hc)|[(_&Hl&Hc&_)|(_&_&Hc&_)]];
      rewrite Hc.
    + rewrite first_pass_blank in * by done. rewrite (IH _ _ _ _ _ H); f_equal; lia.
    + rewrite first_pass_label in * by done. cbv zeta in *.
      destruct (PyStr.is_empty _); [discriminate|]. case_decide; [discriminate|].
      rewrite (IH _ _ _ _ _ H); f_equal; lia.
    + rewrite first_pass_code in * by done. rewrite (IH _ _ _ _ _ H); f_equal; lia.
Qed.

Lemma second_pass_app l1 : forall l2 vm vm1 out1,
  second_pass l1 vm = (Ret tt, vm1, out1) ->
  second_pass (l1 ++ l2) vm = second_pass l2 vm1.
Proof.
  induction l1 as [|x l1 IH]; intros l2 vm vm1 out1 H.
  - by injection H as <- _.
  - rewrite <- app_comm_cons. destruct (is_code_line (normalize x)) eqn:Hc.
    + rewrite second_pass_code in * by done.
      destruct (parse (normalize x)); [|discriminate]. by apply (IH _ _ _ out1).
    + rewrite second_pass_skip in * by done. by apply (IH _ _ _ out1).
Qed.

Lemma load_first_pass_raises source vm e vm' :
  first_pass (PyStr.splitlines source) 0 (cleared vm) = (Raise e, vm', []) ->
  load_program source vm = (Raise e, vm', []).
Proof.
  intros H. rewrite load_program_lines. unfold load_lines, bind. by rewrite H.
Qed.

Lemma forallb_label_names_app l1 l2 :
  label_names (l1 ++ l2) = (label_names l1 ++ label_names l2)%list.
Proof.
  induction l1 as [|x l1 IH]; [done|]. rewrite <- app_comm_cons. cbn [label_names].
  destruct (is_label_line (normalize x)); by rewrite IH.
Qed.

(** The second pass goes through the lines above the first instruction
    line that the validation rejects, and raises there. *)
Lemma load_stops_at_instruction source vm above raw below e :
  PyStr.splitlines source = (above ++ raw :: below)%list ->
  forallb (fun l => negb (PyStr.is_empty l)) (label_names (PyStr.splitlines source)) = true ->
  bool_decide (NoDup (label_names (PyStr.splitlines source))) = true ->
  forallb (fun x => negb (is_code_line (normalize x))
                    || is_Ret (parse (normalize x))) above = true ->
  is_code_line (normalize raw) = true ->
  parse (normalize raw) = Raise e ->
  exists vm',
    load_program source vm = (Raise e, vm', []) /\
    Z.of_nat (length (program vm')) = count_code above.
Proof.
  intros Hs Hne Hnd Habove Hc Hp.
  apply bool_decide_eq_true in Hnd.
  destruct (first_pass_ok (PyStr.splitlines source) 0 (cleared vm) Hne Hnd) as [vm1 H1];
    [done|].
  pose proof (first_pass_frame _ _ _ _ _ _ H1) as [Hf1 _].
  destruct (second_pass_ok above vm1 Habove) as [vm' H2].
  exists vm'. split.
  - rewrite load_program_lines, (load_lines_first_ok _ _ _ H1), Hs.
    rewrite (second_pass_app _ _ _ _ _ H2).
    by rewrite second_pass_code, Hp.
  - rewrite (second_pass_length _ _ _ _ H2), Hf1. simpl. lia.
Qed.

Lemma split_only_separators s :
  only_separators s = true -> PyStr.split (PyStr.replace "," " " s) = [].
Proof.
  induction s as [|c s IH]; [done|]. simpl.
  intros [Hc Hs]%andb_true_iff. unfold is_comma_or_space in Hc.
  destruct (Ascii.eqb c ",") eqn:E; simpl; [by apply IH|].
  simpl in Hc. rewrite Hc. by apply IH.
Qed.

Lemma endswith_only_separators s :
  only_separators s = true -> PyStr.endswith ":" s = false.
Proof.
  induction s as [|c s IH]; [done|]. cbn [only_separators].
  intros [Hc Hs]%andb_true_iff. cbn [PyStr.endswith]. destruct s as [|c' s'].
  - unfold is_comma_or_space in Hc.
    destruct (Ascii.eqb_spec c ":") as [->|]; [by vm_compute in Hc | done].
  - by apply IH.
Qed.

End Stops.

(** X11.  A text that defines a label a second time, after lines whose
    label definitions are non-empty and distinct, is rejected at that
    second definition with the duplicate-label [ValueError] naming the
    label.  No instruction has been parsed by then: the program is
    empty, and the label still has the index of its first definition. *)
Theorem duplicate_label_raises
    (source : string) (vm : MicrowaveVM)
    (above : list string) (d1 : string) (mid : list string) (d2 : string)
    (below : list string) :
  PyStr.splitlines source = (above ++ d1 :: mid ++ d2 :: below)%list ->
  is_label_line (normalize d1) = true ->
  is_label_line (normalize d2) = true ->
  label_of (normalize d2) = label_of (normalize d1) ->
  forallb (fun l => negb (PyStr.is_empty l)) (label_names (above ++ d1 :: mid)) = true ->
  bool_decide (NoDup (label_names (above ++ d1 :: mid))) = true ->
  exists vm',
    load_program source vm
    = (Raise (ValueError ("Duplicate label: " ++ label_of (normalize d1))), vm', []) /\
    program vm' = [] /\
    labels vm' !! label_of (normalize d1) = Some (count_code above).
Proof.
  intros Hs Hd1 Hd2 Heq Hne Hnd. apply bool_decide_eq_true in Hnd.
  destruct (first_pass_ok (above ++ d1 :: mid) 0 (cleared vm) Hne Hnd) as [vm1 H1];
    [done|].
  pose proof (first_pass_frame _ _ _ _ _ _ H1) as [Hf1 _].
  pose proof (first_pass_label_index _ _ _ _ _ _ _ Hd1 H1) as Hidx.
  assert (Hemp : PyStr.is_empty (label_of (normalize d1)) = false).
  { rewrite forallb_label_names_app in Hne. rewrite forallb_app in Hne.
    apply andb_true_iff in Hne. destruct Hne as [_ Hne].
    cbn [label_names] in Hne. rewrite Hd1 in Hne. cbn [forallb] in Hne.
    apply andb_true_iff in Hne. destruct Hne as [Hne _]. by apply negb_true_iff. }
  exists vm1. split_and!.
  - apply load_first_pass_raises. rewrite Hs.
    replace (above ++ d1 :: mid ++ d2 :: below)%list
      with ((above ++ d1 :: mid) ++ d2 :: below)%list
      by (by rewrite <- app_assoc).
    rewrite (first_pass_app _ _ _ _ _ _ H1).
    rewrite first_pass_label by done. cbv zeta. rewrite Heq, Hemp.
    case_decide as Hd; [done|]. exfalso. apply Hd. by rewrite Hidx.
  - by rewrite Hf1.
  - rewrite Hidx. f_equal; lia.
Qed.

Lemma duplicate_label_raises_witness :
  exists vm',
    load_program ("a:" ++ LF ++ "INC TIME" ++ LF ++ " a : ; again" ++ LF ++ "FOO" ++ LF) init
    = (Raise (ValueError ("Duplicate label: " ++ label_of (normalize "a:"))), vm', []) /\
    program vm' = [] /\
    labels vm' !! label_of (normalize "a:") = Some (count_code []).
Proof.
  exact (duplicate_label_raises
           ("a:" ++ LF ++ "INC TIME" ++ LF ++ " a : ; again" ++ LF ++ "FOO" ++ LF) init
           [] "a:" ["INC TIME"] " a : ; again" ["FOO"]
           eq_refl eq_refl eq_refl eq_refl eq_refl eq_refl).
Defined.

(** X12.  A text with a label definition whose name is empty (a line
    that is only a colon once comment and whitespace are removed),
    after lines whose label definitions are non-empty and distinct, is
    rejected at that line with the empty-label [ValueError]; the
    program is empty then. *)
Theorem empty_label_raises
    (source : string) (vm : MicrowaveVM)
    (above : list string) (raw : string) (below : list string) :
  PyStr.splitlines source = (above ++ raw :: below)%list ->
  is_label_line (normalize raw) = true ->
  label_of (normalize raw) = "" ->
  forallb (fun l => negb (PyStr.is_empty l)) (label_names above) = true ->
  bool_decide (NoDup (label_names above)) = true ->
  exists vm',
    load_program source vm = (Raise (ValueError "Empty label definition."), vm', []) /\
    program vm' = [].
Proof.
  intros Hs Hraw Hname Hne Hnd. apply bool_decide_eq_true in Hnd.
  destruct (first_pass_ok above 0 (cleared vm) Hne Hnd) as [vm1 H1]; [done|].
  pose proof (first_pass_frame _ _ _ _ _ _ H1) as [Hf1 _].
  exists vm1. split.
  - apply load_first_pass_raises. rewrite Hs, (first_pass_app _ _ _ _ _ _ H1).
    rewrite first_pass_label by done. cbv zeta. by rewrite Hname.
  - by rewrite Hf1.
Qed.

Lemma empty_label_raises_witness :
  exists vm',
    load_program ("INC TIME" ++ LF ++ "  :  # nothing" ++ LF) init
    = (Raise (ValueError "Empty label definition."), vm', []) /\
    program vm' = [].
Proof.
  exact (empty_label_raises ("INC TIME" ++ LF ++ "  :  # nothing" ++ LF) init
           ["INC TIME"] "  :  # nothing" []
           eq_refl eq_refl eq_refl eq_refl eq_refl).
Defined.

(** X13.  In a text whose label definitions are non-empty and distinct,
    the load stops at the first instruction line that the validation
    rejects and raises that line's error; the program then holds the
    instructions of the instruction lines above it and nothing of the
    lines below. *)
Theorem first_rejected_instruction_raises
    (source : string) (vm : MicrowaveVM)
    (above : list string) (raw : string) (below : list string) (e : exn) :
  PyStr.splitlines source = (above ++ raw :: below)%list ->
  forallb (fun l => negb (PyStr.is_empty l)) (label_names (PyStr.splitlines source)) = true ->
  bool_decide (NoDup (label_names (PyStr.splitlines source))) = true ->
  forallb (fun x => negb (is_code_line (normalize x))
                    || is_Ret (parse (normalize x))) above = true ->
  is_code_line (normalize raw) = true ->
  parse (normalize raw) = Raise e ->
  exists vm',
    load_program source vm = (Raise e, vm', []) /\
    Z.of_nat (length (program vm')) = count_code above.
Proof. apply load_stops_at_instruction. Qed.

Lemma first_rejected_instruction_raises_witness :
  exists vm',
    load_program partial_source init = (Raise (ValueError "Unknown opcode: FOO"), vm', []) /\
    Z.of_nat (length (program vm')) = count_code ["start:"; "INC TIME"].
Proof.
  exact (first_rejected_instruction_raises partial_source init
           ["start:"; "INC TIME"] "FOO TIME" [] (ValueError "Unknown opcode: FOO")
           eq_refl eq_refl eq_refl eq_refl eq_refl eq_refl).
Defined.

(** X14.  An instruction line made of commas and whitespace only, such
    as a lone comma, has no token: reading its opcode raises
    [IndexError], not one of the loader's [ValueError]s.  In a text
    whose label definitions are non-empty and distinct and whose
    instruction lines above it are valid, that is how the load ends. *)
Theorem separator_line_raises_index_error
    (source : string) (vm : MicrowaveVM)
    (above : list string) (raw : string) (below : list string) :
  PyStr.splitlines source = (above ++ raw :: below)%list ->
  forallb (fun l => negb (PyStr.is_empty l)) (label_names (PyStr.splitlines source)) = true ->
  bool_decide (NoDup (label_names (PyStr.splitlines source))) = true ->
  forallb (fun x => negb (is_code_line (normalize x))
                    || is_Ret (parse (normalize x))) above = true ->
  PyStr.is_empty (normalize raw) = false ->
  only_separators (normalize raw) = true ->
  exists vm',
    load_program source vm = (Raise IndexError, vm', []) /\
    Z.of_nat (length (program vm')) = count_code above.
Proof.
  intros Hs Hne Hnd Habove Hemp Hsep.
  apply (load_stops_at_instruction source vm above raw below IndexError); try done.
  - unfold is_code_line. by rewrite Hemp, (endswith_only_separators _ Hsep).
  - unfold parse. by rewrite (split_only_separators _ Hsep).
Qed.

Lemma separator_line_raises_index_error_witness :
  exists vm',
    load_program ("INC TIME" ++ LF ++ " , , ; stray" ++ LF ++ "HALT" ++ LF) init
    = (Raise IndexError, vm', []) /\
    Z.of_nat (length (program vm')) = count_code ["INC TIME"].
Proof.
  exact (separator_line_raises_index_error
           ("INC TIME" ++ LF ++ " , , ; stray" ++ LF ++ "HALT" ++ LF) init
           ["INC TIME"] " , , ; stray" ["HALT"]
           eq_refl eq_refl eq_refl eq_refl eq_refl eq_refl).
Defined.

(** ** The demo program ADD_PROGRAM *)

Section AddProgram.

Implicit Types (vm : MicrowaveVM).

Lemma run_step_none fuel vm vm1 out1 r vm2 out2 :
  halted vm = false ->
  step vm = (Ret tt, vm1, out1) ->
  run fuel None vm1 = Some (r, vm2, out2) ->
  run (S fuel) None vm = Some (r, vm2, (out1 ++ out2)%list).
Proof.
  intros Hh Hs Hr. by rewrite (run_step fuel None vm vm1 out1 Hh eq_refl Hs), Hr.
Qed.

Lemma run_step_none_stuck fuel vm vm1 out1 :
  halted vm = false ->
  step vm = (Ret tt, vm1, out1) ->
  run fuel None vm1 = None ->
  run (S fuel) None vm = None.
Proof.
  intros Hh Hs Hr. by rewrite (run_step fuel None vm vm1 out1 Hh eq_refl Hs), Hr.
Qed.

Lemma load_add_program vm0 :
  load_program ADD_PROGRAM vm0
  = (Ret tt, set_program add_instrs (set_labels add_labels (cleared vm0)), []).
Proof. rewrite load_program_lines. vm_compute. reflexivity. Qed.

(** The three steps of one turn of the loop. *)
Lemma add_turn vm a p :
  program vm = add_instrs -> labels vm = add_labels -> halted vm = false ->
  pc vm = 0 ->
  registers vm !! "TIME" = Some a -> registers vm !! "POWER" = Some p -> p <> 0 ->
  exists vm3,
    (forall fuel r vm' out,
       run fuel None vm3 = Some (r, vm', out) ->
       run (S (S (S fuel))) None vm = Some (r, vm', out)) /\
    (forall fuel, run fuel None vm3 = None -> run (S (S (S fuel))) None vm = None) /\
    program vm3 = add_instrs /\ labels vm3 = add_labels /\ halted vm3 = false /\
    pc vm3 = 0 /\ steps vm3 = steps vm + 3 /\
    registers vm3 !! "TIME" = Some (a + 1) /\
    registers vm3 !! "POWER" = Some (p - 1).
Proof.
  intros Hp Hl Hh Hpc Ht Hpw Hnz.
  assert (H1 : step vm
               = (Ret tt,
                  set_pc 1 (set_registers (<["POWER" := p - 1]> (registers vm))
                              (set_steps (steps vm + 1) vm)), [])).
  { rewrite (decjz_like vm "POWER" "end" []); [|done|lia|by rewrite Hp, Hpc].
    change (regname "POWER") with "POWER". unfold reg_get. rewrite Hpw. simpl.
    destruct (Z.eqb_spec p 0); [done|]. by rewrite Hpc. }
  set (vm1 := set_pc 1 (set_registers (<["POWER" := p - 1]> (registers vm))
                          (set_steps (steps vm + 1) vm))) in *.
  assert (H2 : step vm1
               = (Ret tt,
                  set_pc 2 (set_registers (<["TIME" := a + 1]> (registers vm1))
                              (set_steps (steps vm1 + 1) vm1)), [])).
  { rewrite (step_inc vm1 "TIME"); [|done|done|by simpl; rewrite Hp].
    change (regname "TIME") with "TIME". unfold reg_get.
    replace (registers vm1 !! "TIME") with (Some a); [done|].
    simpl. by rewrite lookup_insert_ne. }
  set (vm2 := set_pc 2 (set_registers (<["TIME" := a + 1]> (registers vm1))
                          (set_steps (steps vm1 + 1) vm1))) in *.
  assert (H3 : step vm2 = (Ret tt, set_pc 0 (set_steps (steps vm2 + 1) vm2), [])).
  { rewrite (step_goto vm2 "loop"); [|done|done|by simpl; rewrite Hp].
    simpl. by rewrite Hl. }
  exists (set_pc 0 (set_steps (steps vm2 + 1) vm2)). split_and!.
  - intros fuel r vm' out Hr.
    apply (run_step_none _ _ _ _ _ _ _ Hh H1).
    apply (run_step_none _ vm1 _ _ _ _ _ Hh H2).
    by apply (run_step_none _ vm2 _ _ _ _ _ Hh H3).
  - intros fuel Hr.
    apply (run_step_none_stuck _ _ _ _ Hh H1).
    apply (run_step_none_stuck _ vm1 _ _ Hh H2).
    by apply (run_step_none_stuck _ vm2 _ _ Hh H3).
  - done.
  - done.
  - done.
  - done.
  - simpl. lia.
  - simpl. apply lookup_insert_eq.
  - simpl. rewrite lookup_insert_ne by done. apply lookup_insert_eq.
Qed.

(** Leaving the loop: POWER is 0, two steps to the beep. *)
Lemma add_exit vm fuel :
  program vm = add_instrs -> labels vm = add_labels -> halted vm = false ->
  pc vm = 0 -> registers vm !! "POWER" = Some 0 ->
  run (S (S fuel)) None vm
  = Some (Ret tt, set_halted true (set_steps (steps vm + 2) (set_pc 3 vm)), ["BEEEEEEP!"]).
Proof.
  intros Hp Hl Hh Hpc Hpw.
  assert (H1 : step vm = (Ret tt, set_pc 3 (set_steps (steps vm + 1) vm), [])).
  { rewrite (decjz_like vm "POWER" "end" []); [|done|lia|by rewrite Hp, Hpc].
    change (regname "POWER") with "POWER". unfold reg_get. rewrite Hpw. simpl.
    by rewrite Hl. }
  set (vm1 := set_pc 3 (set_steps (steps vm + 1) vm)) in *.
  assert (H2 : step vm1 = (Ret tt, set_halted true (set_steps (steps vm1 + 1) vm1),
                           ["BEEEEEEP!"])).
  { apply step_halt; [done|done|by simpl; rewrite Hp]. }
  rewrite (run_step_none (S fuel) vm vm1 [] (Ret tt)
             (set_halted true (set_steps (steps vm1 + 1) vm1)) ["BEEEEEEP!"] Hh H1).
  - simpl. do 3 f_equal. unfold set_halted, set_steps, set_pc. simpl. f_equal. lia.
  - rewrite (run_step_none fuel vm1 _ _ (Ret tt)
               (set_halted true (set_steps (steps vm1 + 1) vm1)) [] Hh H2); [done|].
    by apply run_halted.
Qed.

Lemma add_loop (b : nat) : forall a vm fuel,
  program vm = add_instrs -> labels vm = add_labels -> halted vm = false ->
  pc vm = 0 ->
  registers vm !! "TIME" = Some a -> registers vm !! "POWER" = Some (Z.of_nat b) ->
  (3 * b + 2 <= fuel)%nat ->
  exists vm',
    run fuel None vm = Some (Ret tt, vm', ["BEEEEEEP!"]) /\
    registers vm' !! "TIME" = Some (a + Z.of_nat b) /\
    registers vm' !! "POWER" = Some 0 /\
    steps vm' = steps vm + 3 * Z.of_nat b + 2 /\
    halted vm' = true.
Proof.
  induction b as [|b IH]; intros a vm fuel Hp Hl Hh Hpc Ht Hpw Hf.
  - destruct fuel as [|[|fuel]]; [lia | lia |].
    eexists. split; [by apply add_exit|]. simpl.
    split_and!; [by rewrite Z.add_0_r | done | lia | done].
  - destruct fuel as [|[|[|fuel]]]; [lia | lia | lia |].
    destruct (add_turn vm a (Z.of_nat (S b)) Hp Hl Hh Hpc Ht Hpw ltac:(lia))
      as (vm3 & Hrun & _ & Hp3 & Hl3 & Hh3 & Hpc3 & Hs3 & Ht3 & Hpw3).
    replace (Z.of_nat (S b) - 1) with (Z.of_nat b) in Hpw3 by lia.
    destruct (IH (a + 1) vm3 fuel Hp3 Hl3 Hh3 Hpc3 Ht3 Hpw3 ltac:(lia))
      as (vm' & Hr & Ht' & Hpw' & Hs' & Hh').
    exists vm'. split_and!; try done.
    + by apply Hrun.
    + rewrite Ht'. f_equal. lia.
    + lia.
Qed.

(** With POWER below 0 the loop never leaves. *)
Lemma add_spins fuel : forall vm,
  program vm = add_instrs -> labels vm = add_labels -> halted vm = false ->
  pc vm = 0 \/ pc vm = 1 \/ pc vm = 2 ->
  reg_get vm "POWER" < 0 ->
  run fuel None vm = None.
Proof.
  induction fuel as [|fuel IH]; intros vm Hp Hl Hh Hpc Hneg.
  - simpl. by rewrite Hh.
  - destruct Hpc as [Hpc|[Hpc|Hpc]].
    + eapply run_step_none_stuck; [done| |].
      * rewrite (decjz_like vm "POWER" "end" []); [|done|lia|by rewrite Hp, Hpc].
        change (regname "POWER") with "POWER".
        destruct (Z.eqb_spec (reg_get vm "POWER") 0); [lia|]. reflexivity.
      * apply IH; try done.
        -- simpl. lia.
        -- unfold reg_get in *. simpl. rewrite lookup_insert_eq. simpl. lia.
    + eapply run_step_none_stuck; [done| |].
      * apply (step_inc vm "TIME"); [done|lia|by rewrite Hp, Hpc].
      * apply IH; try done.
        -- simpl. lia.
        -- unfold reg_get. simpl. change (regname "TIME") with "TIME".
           rewrite lookup_insert_ne by done. exact Hneg.
    + eapply run_step_none_stuck; [done| |].
      * rewrite (step_goto vm "loop"); [|done|lia|by rewrite Hp, Hpc].
        rewrite Hl. reflexivity.
      * apply IH; try done. simpl. lia.
Qed.

Lemma add_survives n : forall vm,
  program vm = add_instrs -> labels vm = add_labels -> halted vm = false ->
  pc vm = 0 \/ pc vm = 1 \/ pc vm = 2 ->
  reg_get vm "POWER" < 0 ->
  survives n vm = true.
Proof.
  induction n as [|n IH]; intros vm Hp Hl Hh Hpc Hneg.
  - simpl. by rewrite Hh.
  - cbn [survives]. rewrite Hh. cbn [negb andb].
    destruct Hpc as [Hpc|[Hpc|Hpc]].
    + rewrite (decjz_like vm "POWER" "end" []); [|done|lia|by rewrite Hp, Hpc].
      change (regname "POWER") with "POWER".
      destruct (Z.eqb_spec (reg_get vm "POWER") 0); [lia|].
      apply IH; try done.
      * simpl. lia.
      * unfold reg_get in *. simpl. rewrite lookup_insert_eq. simpl. lia.
    + rewrite (step_inc vm "TIME"); [|done|lia|by rewrite Hp, Hpc].
      apply IH; try done.
      * simpl. lia.
      * unfold reg_get. simpl. change (regname "TIME") with "TIME".
        rewrite lookup_insert_ne by done. exact Hneg.
    + rewrite (step_goto vm "loop"); [|done|lia|by rewrite Hp, Hpc].
      rewrite Hl. change (add_labels !! "loop") with (Some 0).
      apply IH; try done. simpl. lia.
Qed.

End AddProgram.

(** X15.  [ADD_PROGRAM] does what its comment says.  Loaded into any
    machine and seeded with TIME = a and POWER = b >= 0, the run
    returns normally after exactly 3b + 2 steps with TIME = a + b and
    POWER = 0, halted, having printed the beep once and nothing else. *)
Theorem add_program_adds (a b : Z) (vm0 : MicrowaveVM) (fuel : nat) :
  0 <= b ->
  (3 * Z.to_nat b + 2 <= fuel)%nat ->
  exists loaded seeded final,
    load_program ADD_PROGRAM vm0 = (Ret tt, loaded, []) /\
    reset_registers a b loaded = (Ret tt, seeded, []) /\
    run fuel None seeded = Some (Ret tt, final, ["BEEEEEEP!"]) /\
    registers final !! "TIME" = Some (a + b) /\
    registers final !! "POWER" = Some 0 /\
    steps final = 3 * b + 2 /\
    halted final = true.
Proof.
  intros Hb Hf.
  set (loaded := set_program add_instrs (set_labels add_labels (cleared vm0))).
  set (seeded := set_steps 0 (set_halted false (set_pc 0
                   (set_registers (<["POWER" := b]> (<["TIME" := a]> (registers vm0)))
                      loaded)))).
  destruct (add_loop (Z.to_nat b) a seeded fuel) as (vm' & Hr & Ht & Hp & Hs & Hh);
    try done.
  - unfold seeded. simpl. rewrite lookup_insert_ne by done. apply lookup_insert_eq.
  - unfold seeded. simpl. rewrite lookup_insert_eq. f_equal. lia.
  - exists loaded, seeded, vm'. split; [apply load_add_program|].
    split; [reflexivity|]. split; [exact Hr|]. split_and!; try done.
    + rewrite Ht. f_equal. lia.
    + rewrite Hs. unfold seeded. simpl. lia.
Qed.

Lemma add_program_adds_witness :
  exists loaded seeded final,
    load_program ADD_PROGRAM init = (Ret tt, loaded, []) /\
    reset_registers 3 2 loaded = (Ret tt, seeded, []) /\
    run 10 None seeded = Some (Ret tt, final, ["BEEEEEEP!"]) /\
    registers final !! "TIME" = Some (3 + 2) /\
    registers final !! "POWER" = Some 0 /\
    steps final = 3 * 2 + 2 /\
    halted final = true.
Proof.
  apply (add_program_adds 3 2 init 10).
  - lia.
  - vm_compute. lia.
Defined.

(** X16.  Seeded with a negative POWER, [ADD_PROGRAM] never halts: the
    DECJZ only moves the register further below 0.  A run without a
    budget does not return, whatever the number of loop iterations
    allowed; a run with a budget [B >= 0] ends with the step-limit
    error after exactly [B] steps. *)
Theorem add_program_spins_on_negative_power
    (a b : Z) (vm0 : MicrowaveVM) (fuel : nat) (B : nat) :
  b < 0 ->
  (B <= fuel)%nat ->
  exists loaded seeded,
    load_program ADD_PROGRAM vm0 = (Ret tt, loaded, []) /\
    reset_registers a b loaded = (Ret tt, seeded, []) /\
    run fuel None seeded = None /\
    exists vm' out,
      run fuel (Some (Z.of_nat B)) seeded = Some (Raise step_limit, vm', out) /\
      steps vm' = Z.of_nat B.
Proof.
  intros Hb Hf.
  set (loaded := set_program add_instrs (set_labels add_labels (cleared vm0))).
  set (seeded := set_steps 0 (set_halted false (set_pc 0
                   (set_registers (<["POWER" := b]> (<["TIME" := a]> (registers vm0)))
                      loaded)))).
  assert (Hneg : reg_get seeded "POWER" < 0).
  { unfold reg_get, seeded. simpl. by rewrite lookup_insert_eq. }
  exists loaded, seeded. split; [apply load_add_program|]. split; [reflexivity|].
  split.
  - apply add_spins; try done. by left.
  - apply (run_hits_budget B seeded (Z.of_nat B) fuel); [|done|done].
    apply add_survives; try done. by left.
Qed.

Lemma add_program_spins_on_negative_power_witness :
  exists loaded seeded,
    load_program ADD_PROGRAM init = (Ret tt, loaded, []) /\
    reset_registers 3 (-1) loaded = (Ret tt, seeded, []) /\
    run 50 None seeded = None /\
    exists vm' out,
      run 50 (Some (Z.of_nat 7)) seeded = Some (Raise step_limit, vm', out) /\
      steps vm' = Z.of_nat 7.
Proof.
  apply (add_program_spins_on_negative_power 3 (-1) init 50 7); lia.
Defined.

(** ** What a run prints *)

Section Output.

Implicit Types (vm : MicrowaveVM) (instr : Instr).

Ltac split_cases :=
  repeat match goal with
         | |- context [String.eqb ?a ?b] => destruct (String.eqb a b)
         | |- context [?l !! ?i] =>
             match type of l with list string => destruct (l !! i) end
         | |- context [PyStr.int ?s] => destruct (PyStr.int s)
         | |- context [Z.eqb ?a ?b] => destruct (Z.eqb a b)
         | |- context [labels ?v !! ?t] => destruct (labels v !! t)
         end.

Lemma exec_output instr vm r vm' out :
  exec instr vm = (r, vm', out) ->
  out = [] \/
  (is_time_line_list out /\ r = Ret tt /\ halted vm' = halted vm) \/
  (out = ["BEEEEEEP!"] /\ r = Ret tt /\ halted vm' = true).
Proof.
  unfold exec, jump, advance.
  unfold bind, index, to_int, get, ret, raise, modify, print.
  split_cases; simpl; split_cases; simpl; intros H; inversion H; subst; simpl;
    try (by left); try (by right; right).
  right; left. split; [|done]. by eexists.
Qed.

Lemma step_output vm r vm' out :
  halted vm = false ->
  step vm = (r, vm', out) ->
  out = [] \/
  (is_time_line_list out /\ r = Ret tt /\ halted vm' = false) \/
  (out = ["BEEEEEEP!"] /\ r = Ret tt /\ halted vm' = true).
Proof.
  intros Hh H.
  destruct (step_shape vm) as [(Hh' & _)|[(_ & _ & Hs)|(_ & _ & instr & _ & Hs)]];
    [congruence | |]; rewrite Hs in H.
  - injection H as _ _ <-. by left.
  - apply exec_output in H. simpl in H. by rewrite Hh in H.
Qed.

Lemma run_output fuel : forall max_steps vm r vm' out,
  run fuel max_steps vm = Some (r, vm', out) ->
  exists prints,
    Forall is_time_line prints /\
    (out = prints \/
     (out = (prints ++ ["BEEEEEEP!"])%list /\ r = Ret tt /\ halted vm' = true)).
Proof.
  induction fuel as [|fuel IH]; intros ms vm r vm' out H.
  - exists []. split; [constructor|]. left.
    simpl in H. destruct (halted vm); [by injection H as _ _ <-|].
    destruct (over_budget ms vm); [by injection H as _ _ <-|done].
  - cbn [run] in H. destruct (halted vm) eqn:Hh.
    { injection H as _ _ <-. exists []. split; [constructor | by left]. }
    destruct (over_budget ms vm).
    { injection H as _ _ <-. exists []. split; [constructor | by left]. }
    destruct (step vm) as [[r1 vm1] out1] eqn:Hs.
    pose proof (step_output _ _ _ _ Hh Hs) as Hout.
    destruct r1 as [[]|e].
    + destruct (run fuel ms vm1) as [[[r2 vm2] out2]|] eqn:Hr; [|done].
      injection H as <- <- <-.
      destruct Hout as [-> | [((n & ->) & _ & Hh1) | (-> & _ & Hh1)]].
      * by apply (IH ms vm1).
      * destruct (IH _ _ _ _ _ Hr) as (prints & Hall & Hshape).
        exists (("TIME: " ++ PyStr.str n) :: prints). split.
        -- constructor; [by eexists | done].
        -- destruct Hshape as [-> | (-> & ? & ?)]; [by left | by right].
      * rewrite (run_halted fuel ms vm1 Hh1) in Hr. injection Hr as <- <- <-.
        exists []. split; [constructor|]. by right.
    + injection H as <- <- <-.
      destruct Hout as [-> | [(_ & [=] & _) | (_ & [=] & _)]].
      exists []. split; [constructor | by left].
Qed.

End Output.

(** X17.  Whatever the machine and however the run ends, what a run
    prints is a sequence of TIME lines followed by at most one beep;
    and when the beep is there it is the last line, the run returned
    normally and the machine is halted. *)
Theorem run_prints_time_lines_then_beep
    (fuel : nat) (max_steps : option Z) (vm : MicrowaveVM)
    (r : res unit) (vm' : MicrowaveVM) (out : list string) :
  run fuel max_steps vm = Some (r, vm', out) ->
  exists prints,
    Forall is_time_line prints /\
    (out = prints \/
     (out = (prints ++ ["BEEEEEEP!"])%list /\ r = Ret tt /\ halted vm' = true)).
Proof. apply run_output. Qed.

Lemma run_prints_time_lines_then_beep_witness :
  let vm := vm_of [mkInstr "PRINT" []; mkInstr "INC" ["TIME"]; mkInstr "PRINT" [];
                   mkInstr "HALT" []] in
  exists r vm' out,
    run 10 None vm = Some (r, vm', out) /\
    exists prints,
      Forall is_time_line prints /\
      (out = prints \/
       (out = (prints ++ ["BEEEEEEP!"])%list /\ r = Ret tt /\ halted vm' = true)).
Proof.
  intros vm.
  destruct (run 10 None vm) as [[[r vm'] out]|] eqn:H; [|vm_compute in H; discriminate].
  exists r, vm', out. split; [reflexivity|].
  exact (run_prints_time_lines_then_beep 10 None vm r vm' out H).
Defined.

(** X18.  A text without instruction lines (empty, or only blank lines,
    comments and label definitions) loads to the empty program.  The
    first step of a run then halts the machine silently: the run
    returns with nothing printed, no step counted and the registers as
    they were.  With a budget that is not positive the run raises the
    step-limit error instead, before that first step. *)
Theorem text_without_instructions
    (source : string) (vm vm' : MicrowaveVM) (out : list string) (fuel : nat) (B : Z) :
  load_program source vm = (Ret tt, vm', out) ->
  count_code (PyStr.splitlines source) = 0 ->
  program vm' = [] /\
  run (S fuel) None vm' = Some (Ret tt, set_halted true vm', []) /\
  run (S fuel) (Some B) vm'
  = if 0 <? B then Some (Ret tt, set_halted true vm', [])
    else Some (Raise step_limit, vm', []).
Proof.
  intros H Hc.
  assert (Hrw : halted vm' = false /\ steps vm' = 0 /\ pc vm' = 0).
  { apply load_program_ok_inv in H. destruct H as (vm1 & _ & _ & Hf1 & Hf2 & _).
    rewrite Hf2. simpl. by rewrite Hf1. }
  destruct Hrw as (Hh & Hs & Hpc).
  apply load_program_shape in H. destruct H as (Hlen & _). rewrite Hc in Hlen.
  assert (Hp : program vm' = []) by (destruct (program vm'); [done | simpl in Hlen; lia]).
  assert (Hb : in_bounds vm' = false).
  { apply in_bounds_false. rewrite Hp. simpl. lia. }
  pose proof (step_off_the_end vm' Hh Hb) as Hstep.
  split; [done|]. split.
  - rewrite (run_step fuel None vm' _ _ Hh eq_refl Hstep).
    by rewrite run_halted.
  - destruct (Z.ltb_spec 0 B).
    + assert (Ho : over_budget (Some B) vm' = false) by (apply Z.leb_gt; lia).
      rewrite (run_step fuel (Some B) vm' _ _ Hh Ho Hstep). by rewrite run_halted.
    + apply run_over_budget; [done|]. apply Z.leb_le. lia.
Qed.

Lemma text_without_instructions_witness :
  exists vm' out,
    load_program ("; nothing here" ++ LF ++ LF ++ "start:  # a label" ++ LF) init
    = (Ret tt, vm', out) /\
    program vm' = [] /\
    run (S 0) None vm' = Some (Ret tt, set_halted true vm', []) /\
    run (S 0) (Some 0) vm'
    = if 0 <? 0 then Some (Ret tt, set_halted true vm', [])
      else Some (Raise step_limit, vm', []).
Proof.
  destruct (load_program ("; nothing here" ++ LF ++ LF ++ "start:  # a label" ++ LF) init)
    as [[r vm'] out] eqn:H.
  assert (Hr : r = Ret tt) by (vm_compute in H; by injection H as <- _ _).
  subst r. exists vm', out. split; [reflexivity|].
  exact (text_without_instructions _ init vm' out 0 0 H eq_refl).
Defined.

(** ** Blank lines and comments *)

Section Significant.

Implicit Types (vm : MicrowaveVM) (lines : list string).

Lemma has_delim_before_comment s : has_delim (before_comment s) = false.
Proof.
  induction s as [|c s IH]; [done|]. simpl.
  destruct (is_delim c) eqn:E; [done|]. simpl. by rewrite E.
Qed.

Lemma has_delim_lstrip s : has_delim s = false -> has_delim (PyStr.lstrip s) = false.
Proof.
  induction s as [|c s IH]; [done|]. simpl. intros [Hc Hs]%orb_false_iff.
  destruct (PyStr.is_space c); [by apply IH|]. simpl. by rewrite Hc, Hs.
Qed.

Lemma has_delim_rstrip s : has_delim s = false -> has_delim (PyStr.rstrip s) = false.
Proof.
  induction s as [|c s IH]; [done|]. simpl. intros [Hc Hs]%orb_false_iff.
  destruct (PyStr.is_space c && PyStr.is_empty (PyStr.rstrip s)); [done|].
  simpl. by rewrite Hc, IH.
Qed.

Lemma rstrip_idem s : PyStr.rstrip (PyStr.rstrip s) = PyStr.rstrip s.
Proof.
  induction s as [|c s IH]; [done|]. simpl.
  destruct (PyStr.is_space c && PyStr.is_empty (PyStr.rstrip s)) eqn:E; [done|].
  simpl. by rewrite IH, E.
Qed.

Lemma strip_idem s : PyStr.strip (PyStr.strip s) = PyStr.strip s.
Proof.
  unfold PyStr.strip.
  assert (Hhead : PyStr.lstrip s = "" \/
                  exists c t, PyStr.lstrip s = String c t /\ PyStr.is_space c = false).
  { induction s as [|c s IH]; [by left|]. simpl.
    destruct (PyStr.is_space c) eqn:E; [done|]. right. by exists c, s. }
  destruct Hhead as [-> | (c & t & -> & Hc)]; [done|].
  simpl. rewrite Hc. simpl. rewrite Hc. simpl. rewrite Hc. simpl.
  by rewrite rstrip_idem.
Qed.

Lemma normalize_idem raw : normalize (normalize raw) = normalize raw.
Proof.
  rewrite !normalize_before_comment.
  rewrite (before_comment_none (PyStr.strip (before_comment raw))).
  - apply strip_idem.
  - unfold PyStr.strip. apply has_delim_rstrip, has_delim_lstrip, has_delim_before_comment.
Qed.

Lemma first_pass_significant lines : forall idx vm,
  first_pass lines idx vm = first_pass (significant lines) idx vm.
Proof.
  induction lines as [|raw lines IH]; intros idx vm; [done|]. cbn [significant].
  destruct (line_kinds (normalize raw)) as [(He&_)|[(He&Hl&_)|(He&_&Hc&_)]];
    rewrite He.
  - rewrite first_pass_blank by done. apply IH.
  - rewrite !first_pass_label by (by rewrite ?normalize_idem).
    rewrite normalize_idem. cbv zeta.
    destruct (PyStr.is_empty (label_of (normalize raw))); [done|].
    case_decide; [done|]. apply IH.
  - rewrite !first_pass_code by (by rewrite ?normalize_idem). apply IH.
Qed.

Lemma second_pass_significant lines : forall vm,
  second_pass lines vm = second_pass (significant lines) vm.
Proof.
  induction lines as [|raw lines IH]; intros vm; [done|]. cbn [significant].
  destruct (line_kinds (normalize raw)) as [(He&_&Hc)|[(He&_&Hc&_)|(He&_&Hc&_)]];
    rewrite He.
  - rewrite second_pass_skip by done. apply IH.
  - rewrite !second_pass_skip by (by rewrite ?normalize_idem). apply IH.
  - rewrite !second_pass_code by (by rewrite ?normalize_idem).
    rewrite normalize_idem. destruct (parse (normalize raw)); [apply IH | done].
Qed.

End Significant.

(** X19.  Blank lines, comments and surrounding whitespace never
    matter: two texts whose lines, once comments and surrounding
    whitespace are removed and empty lines dropped, are the same, load
    with the same result on the same machine, whether that is the same
    program and label table or the same error. *)
Theorem load_ignores_blank_lines_and_comments (s1 s2 : string) (vm : MicrowaveVM) :
  significant (PyStr.splitlines s1) = significant (PyStr.splitlines s2) ->
  load_program s1 vm = load_program s2 vm.
Proof.
  intros H. rewrite !load_program_lines. unfold load_lines, bind.
  rewrite (first_pass_significant (PyStr.splitlines s1)),
          (first_pass_significant (PyStr.splitlines s2)), H.
  destruct (first_pass _ _ _) as [[[[]|e] vm1] out1]; [|done].
  by rewrite (second_pass_significant (PyStr.splitlines s1)),
             (second_pass_significant (PyStr.splitlines s2)), H.
Qed.

Lemma load_ignores_blank_lines_and_comments_witness :
  load_program ADD_PROGRAM init
  = load_program ("loop:" ++ LF ++ "DECJZ POWER end" ++ LF ++ "INC TIME" ++ LF ++
                  "GOTO loop  # back" ++ LF ++ LF ++ "end:" ++ LF ++ "HALT") init.
Proof.
  apply (load_ignores_blank_lines_and_comments ADD_PROGRAM
           ("loop:" ++ LF ++ "DECJZ POWER end" ++ LF ++ "INC TIME" ++ LF ++
            "GOTO loop  # back" ++ LF ++ LF ++ "end:" ++ LF ++ "HALT") init).
  vm_compute. reflexivity.
Defined.

(** ** Tokens *)

(** X20.  The validation of an instruction line looks at its tokens
    only, and at the first token only up to letter case: two lines
    that split into the same argument tokens after first tokens that
    agree once upper-cased (so whatever the commas, the spacing and the
    case of the opcode) are accepted together, as the same
    instruction. *)
Theorem parse_depends_on_tokens
    (l1 l2 t1 t2 : string) (targs : list string) (instr : Instr) :
  PyStr.split (PyStr.replace "," " " l1) = t1 :: targs ->
  PyStr.split (PyStr.replace "," " " l2) = t2 :: targs ->
  PyStr.upper t1 = PyStr.upper t2 ->
  parse l1 = Ret instr ->
  parse l2 = Ret instr.
Proof.
  unfold parse. intros -> -> ->.
  repeat match goal with
         | |- context [String.eqb (PyStr.upper t2) ?o] =>
             destruct (String.eqb (PyStr.upper t2) o);
             [destruct targs as [|a0 [|a1 [|a2 targs]]]; try done;
              repeat case_match; done|]
         end.
  done.
Qed.

Lemma parse_depends_on_tokens_witness :
  parse "  set , TIME,,5 " = Ret (mkInstr "SET" ["TIME"; "5"]).
Proof.
  apply (parse_depends_on_tokens "SET TIME 5" "  set , TIME,,5 " "SET" "set"
           ["TIME"; "5"] (mkInstr "SET" ["TIME"; "5"]));
    reflexivity.
Defined.
